(** * UnitsLibrary (namespace [rgf]): dimension algebra, quantities,
      absolutes and linear units.

    A shallow embedding of [Dimension.hpp], [Quantity.hpp], [Absolute.hpp],
    [LinearUnit.hpp] and of the part of [CommonDimensions.hpp] /
    [CommonUnits.hpp] that the examples use.

    Conventions of the embedding.
    - A template instantiation that the compiler rejects (no matching partial
      specialization, an unsatisfied [requires] clause, a failed
      [static_assert], an expression that is not a constant expression) is
      [None]; an accepted one is [Some] of the resulting type or value.
    - A dimension type [dimension_t<B1<e1>, ..., Bk<ek>>] is the list of its
      bases; a base [B<e>] is the name of the class template [B] with the
      [int] template argument [e].
    - [quantity<D, T>], [absolute<D, T>] and [linear_unit<D, T>] are records
      indexed by the dimension [D]: the C++ type checker's "same dimension"
      is Rocq's own typing.  An object of [quantity<D, T>] carries the fact
      that the class is instantiated at [D]; an expression that would create
      one where it is not is rejected. *)

From Stdlib Require Import ZArith List String Bool Lia.
From Stdlib Require Import Ring_theory Field_theory QArith Qcanon.
From Stdlib Require Import Eqdep_dec Floats.
Import ListNotations.

Local Open Scope Z_scope.

(** ** Rejection as an option, with a bind notation *)

Notation "x <- c1 ;; c2" :=
  (match c1 with Some x => c2 | None => None end)
  (at level 61, c1 at next level, right associativity).

(** ** Constant evaluation of [int] expressions

    Template arguments and the initializer of a [constexpr] variable are
    constant expressions.  An [int] operation whose mathematical result is
    not representable (signed overflow, division by zero, [INT_MIN / -1] and
    [INT_MIN % -1]) has undefined behaviour, so the expression is not a
    constant expression and the program is ill-formed.  [int] is taken as the
    32-bit two's complement type of the mainstream ABIs. *)

Module ConstExpr.

Definition INT_MIN : Z := -2147483648.
Definition INT_MAX : Z := 2147483647.

Definition representable (z : Z) : bool :=
  (INT_MIN <=? z) && (z <=? INT_MAX).

(** The value [z] as an [int] constant, if there is one. *)
Definition constant (z : Z) : option Z :=
  if representable z then Some z else None.

(** [a + b] *)
Definition add (a b : Z) : option Z := constant (a + b).

(** [a * b] *)
Definition mul (a b : Z) : option Z := constant (a * b).

(** [a / b]: truncating; undefined when [b] is zero or the quotient is not
    representable. *)
Definition div (a b : Z) : option Z :=
  if b =? 0 then None else constant (Z.quot a b).

(** [a % b]: sign of the dividend; undefined exactly when [a / b] is. *)
Definition rem (a b : Z) : option Z :=
  if b =? 0 then None
  else _ <- constant (Z.quot a b) ;; Some (Z.rem a b).

End ConstExpr.

Import ConstExpr.

(** ** Dimension.hpp *)

(** A dimension base [BASE_T<N>]: a class template with a single integer
    parameter, instantiated at [N]. *)
Record dimension_base : Type := BASE_T {
  base_template : string;
  base_exponent : Z
}.

(** [dimension_t<BASES...>] *)
Definition dimension_t : Type := list dimension_base.

(** [base_types_t<BASE_TYPES...>] *)
Definition base_types_t : Type := list string.

(** The pack [BASE_TYPES...] and the pack of exponents of a dimension. *)
Definition base_types (D : dimension_t) : base_types_t := map base_template D.
Definition exponents (D : dimension_t) : list Z := map base_exponent D.

(** The exponents of a dimension type are [int] template arguments. *)
Definition well_formed (D : dimension_t) : Prop :=
  Forall (fun e => representable e = true) (exponents D).

(** [std::is_same_v] on bases and on dimensions. *)
Definition dimension_base_eqb (a b : dimension_base) : bool :=
  String.eqb (base_template a) (base_template b)
  && (base_exponent a =? base_exponent b).

Fixpoint is_same_v (L R : dimension_t) : bool :=
  match L, R with
  | [], [] => true
  | a :: L', b :: R' => dimension_base_eqb a b && is_same_v L' R'
  | _, _ => false
  end.

(** The fold [(((EXPONENTS * NUM) % DEN == 0) && ...)]: a unary right fold
    over [&&], so the operands are evaluated left to right and evaluation
    stops at the first false one.  [None]: the evaluation meets an operation
    without a result. *)
Fixpoint is_valid_power_fold (EXPONENTS : list Z) (NUM DEN : Z) : option bool :=
  match EXPONENTS with
  | [] => Some true
  | e :: rest =>
      p <- mul e NUM ;;
      r <- rem p DEN ;;
      if r =? 0 then is_valid_power_fold rest NUM DEN else Some false
  end.

(** [detail::is_valid_power<std::integer_sequence<int, EXPONENTS...>, NUM, DEN>]
    [= (DEN != 0) && (((EXPONENTS * NUM) % DEN == 0) && ...)] *)
Definition is_valid_power (EXPONENTS : list Z) (NUM DEN : Z) : option bool :=
  if negb (DEN =? 0) then is_valid_power_fold EXPONENTS NUM DEN else Some false.

(** [detail::dimension_product<LEFT_DIM, RIGHT_DIM>::type].  The partial
    specialization matches when one pack [BASE_TYPES...] is deduced from both
    arguments: the same templates in the same order.  Its member is
    [dimension_t<BASE_TYPES<LEFT_EXPONENTS + RIGHT_EXPONENTS>...>]. *)
Fixpoint dimension_product (LEFT_DIM RIGHT_DIM : dimension_t) : option dimension_t :=
  match LEFT_DIM, RIGHT_DIM with
  | [], [] => Some []
  | BASE_T bl el :: L', BASE_T br er :: R' =>
      if String.eqb bl br then
        e <- add el er ;;
        rest <- dimension_product L' R' ;;
        Some (BASE_T bl e :: rest)
      else None
  | _, _ => None
  end.

(** The member of the partial specialization of [dimension_exponent]:
    [dimension_t<BASE_TYPES<(EXPONENTS * POW_NUM) / POW_DEN>...>]. *)
Fixpoint dimension_exponent_type (DIM : dimension_t) (POW_NUM POW_DEN : Z)
  : option dimension_t :=
  match DIM with
  | [] => Some []
  | BASE_T b e :: rest =>
      p <- mul e POW_NUM ;;
      q <- div p POW_DEN ;;
      rest' <- dimension_exponent_type rest POW_NUM POW_DEN ;;
      Some (BASE_T b q :: rest')
  end.

(** [detail::dimension_exponent<DIM, POW_NUM, POW_DEN>::type]: the partial
    specialization is constrained by [is_valid_power]; the primary template
    has no definition. *)
Definition dimension_exponent (DIM : dimension_t) (POW_NUM POW_DEN : Z)
  : option dimension_t :=
  match is_valid_power (exponents DIM) POW_NUM POW_DEN with
  | Some true => dimension_exponent_type DIM POW_NUM POW_DEN
  | _ => None
  end.

(** [detail::scalar_dimension_type<base_types_t<BASE_TYPES...>>::type] *)
Definition scalar_dimension_type (BASE_TYPES : base_types_t) : dimension_t :=
  map (fun b => BASE_T b 0) BASE_TYPES.

(** [detail::unit_dimension_type<base_types_t<BASE_TYPES...>, BASE_TYPE>::type],
    behind its [static_assert]; a [bool] template argument converts to 1 or 0. *)
Definition unit_dimension_type (BASE_TYPES : base_types_t) (BASE_TYPE : string)
  : option dimension_t :=
  if existsb (fun b => String.eqb b BASE_TYPE) BASE_TYPES
  then Some (map (fun b => BASE_T b (if String.eqb b BASE_TYPE then 1 else 0))
                 BASE_TYPES)
  else None.

(** [dimension_inverse_t<DIM>]; [POW_DEN] takes its default, 1. *)
Definition dimension_inverse_t (DIM : dimension_t) : option dimension_t :=
  dimension_exponent DIM (-1) 1.

(** [dimension_product_t<LEFT_DIM, RIGHT_DIM>] *)
Definition dimension_product_t (LEFT_DIM RIGHT_DIM : dimension_t)
  : option dimension_t :=
  dimension_product LEFT_DIM RIGHT_DIM.

(** [dimension_quotient_t<LEFT_DIM, RIGHT_DIM>] *)
Definition dimension_quotient_t (LEFT_DIM RIGHT_DIM : dimension_t)
  : option dimension_t :=
  inv <- dimension_inverse_t RIGHT_DIM ;;
  dimension_product_t LEFT_DIM inv.

(** [dimension_exponent_t<DIM, POW_NUM, POW_DEN>] *)
Definition dimension_exponent_t (DIM : dimension_t) (POW_NUM POW_DEN : Z)
  : option dimension_t :=
  dimension_exponent DIM POW_NUM POW_DEN.

(** [concept empty_dimension]: [std::same_as<DIM, dimension_exponent_t<DIM, 0>>];
    a substitution failure makes the concept false. *)
Definition empty_dimension (DIM : dimension_t) : bool :=
  match dimension_exponent_t DIM 0 1 with
  | Some SCALAR => is_same_v DIM SCALAR
  | None => false
  end.

(** [scalar_dimension_type_t] and [unit_dimension_type_t] *)
Definition scalar_dimension_type_t := scalar_dimension_type.
Definition unit_dimension_type_t := unit_dimension_type.

(** ** Quantity.hpp *)

(** [concept arithmetic]: the magnitude type with the operations the library
    applies to it.  A binary operation is taken at one magnitude type, so
    [sum_t<T, T>], [difference_t<T, T>], [product_t<T, T>] and
    [quotient_t<T, T>] are [T]. *)
Class arithmetic (T : Type) : Type := {
  value_init : T;                 (* T(): value-initialization, zero *)
  value_one : T;                  (* the literal 1 converted to T *)
  value_add : T -> T -> T;        (* l + r *)
  value_sub : T -> T -> T;        (* l - r *)
  value_mul : T -> T -> T;        (* l * r *)
  value_div : T -> T -> T;        (* l / r *)
  value_neg : T -> T;             (* -x *)
  value_eq : T -> T -> bool       (* l == r *)
}.

(** A member function or operator behind a [requires] clause. *)
Definition requires {A : Type} (constraint : bool) (body : A) : option A :=
  if constraint then Some body else None.

Module Quantity.

(** Instantiating the class [quantity<D, T>] instantiates the declarations
    of its friends.  The friend [operator/(T, const quantity&)] has the return
    type [quantity<dimension_inverse_t<dimension>, quotient_t<T, value_type>>],
    whose first argument depends on no template parameter of the friend: the
    alias is named with the class, which can therefore be instantiated only
    where [dimension_inverse_t<dimension>] exists. *)
Definition instantiable (D : dimension_t) : bool :=
  match dimension_inverse_t D with
  | Some _ => true
  | None => false
  end.

Section Quantity.
Context {T : Type} `{arithmetic T}.

(** An object of the class: its one data member, at a dimension where the
    class is instantiated. *)
Record quantity (D : dimension_t) : Type := in_place {
  class_instantiated : instantiable D = true;
  mStandardValue : T
}.
Arguments in_place {D} _ _.
Arguments class_instantiated {D} _.
Arguments mStandardValue {D} _.

(** [quantity<D, T>{ std::in_place, aStandardValue }] where no object of the
    class is at hand: the class is instantiated first. *)
Definition construct {D : dimension_t} (aStandardValue : T) : option (quantity D) :=
  match bool_dec (instantiable D) true with
  | left inst => Some (in_place inst aStandardValue)
  | right _ => None
  end.

(** [{ std::in_place, aStandardValue }] as another object of the class of [q]. *)
Definition with_value {D} (q : quantity D) (aStandardValue : T) : quantity D :=
  in_place (class_instantiated q) aStandardValue.

Definition is_scalar (D : dimension_t) : bool := empty_dimension D.

(** [quantity() = default], with [mStandardValue = value_type()] *)
Definition default (D : dimension_t) : option (quantity D) :=
  construct value_init.

(** [quantity(value_type aValue) requires is_scalar] *)
Definition of_value (D : dimension_t) (aValue : T) : option (quantity D) :=
  _ <- requires (is_scalar D) tt ;;
  construct aValue.

Definition get_standard {D} (q : quantity D) : T := mStandardValue q.

Definition set_standard_value {D} (q : quantity D) (aValue : T) : quantity D :=
  with_value q aValue.

(** [operator value_type() const requires is_scalar] *)
Definition to_value {D} (q : quantity D) : option T :=
  requires (is_scalar D) (mStandardValue q).

(** [concept unit_type<T, Q>]: the unit has the dimension of [Q] (here: an
    instance exists only at the same index) and a member [get(q)]. *)
Class unit_type (UNIT : Type) (Q : Type) : Type := {
  unit_get : UNIT -> Q -> T
}.

(** [quantity::get(const UNIT& aUnit)] *)
Definition get {D} {UNIT : Type} `{unit_type UNIT (quantity D)}
  (q : quantity D) (aUnit : UNIT) : T :=
  unit_get aUnit q.

(** In-place operators: the updated object. *)
Definition add_assign_value {D} (q : quantity D) (aValue : T) : option (quantity D) :=
  requires (is_scalar D) (with_value q (value_add (mStandardValue q) aValue)).
Definition add_assign {D} (q aOther : quantity D) : quantity D :=
  with_value q (value_add (mStandardValue q) (get_standard aOther)).
Definition sub_assign_value {D} (q : quantity D) (aValue : T) : option (quantity D) :=
  requires (is_scalar D) (with_value q (value_sub (mStandardValue q) aValue)).
Definition sub_assign {D} (q aOther : quantity D) : quantity D :=
  with_value q (value_sub (mStandardValue q) (get_standard aOther)).
Definition mul_assign_value {D} (q : quantity D) (aValue : T) : quantity D :=
  with_value q (value_mul (mStandardValue q) aValue).
Definition div_assign_value {D} (q : quantity D) (aValue : T) : quantity D :=
  with_value q (value_div (mStandardValue q) aValue).

(** Unary minus. *)
Definition neg {D} (q : quantity D) : quantity D :=
  with_value q (value_neg (mStandardValue q)).

(** Addition: overload 1 for all values, overloads 2 and 3 for scalars. *)
Definition add {D} (aLeft aRight : quantity D) : quantity D :=
  with_value aLeft (value_add (get_standard aLeft) (get_standard aRight)).
Definition add_value {D} (aLeft : quantity D) (aRight : T) : option (quantity D) :=
  requires (is_scalar D) (with_value aLeft (value_add (get_standard aLeft) aRight)).
Definition value_add_quantity {D} (aLeft : T) (aRight : quantity D) : option (quantity D) :=
  requires (is_scalar D) (with_value aRight (value_add aLeft (get_standard aRight))).

(** Subtraction: overload 1 for all values, overloads 2 and 3 for scalars. *)
Definition sub {D} (aLeft aRight : quantity D) : quantity D :=
  with_value aLeft (value_sub (get_standard aLeft) (get_standard aRight)).
Definition sub_value {D} (aLeft : quantity D) (aRight : T) : option (quantity D) :=
  requires (is_scalar D) (with_value aLeft (value_sub (get_standard aLeft) aRight)).
Definition value_sub_quantity {D} (aLeft : T) (aRight : quantity D) : option (quantity D) :=
  requires (is_scalar D) (with_value aRight (value_sub aLeft (get_standard aRight))).

(** Multiplication and division of two quantities: the result type is
    [quantity<dimension_product_t<dimension, RDIM>, ...>], resp.
    [dimension_quotient_t]; the overload exists when that alias does, and
    its result when the class can be instantiated at that dimension. *)
Definition mul {D RDIM} (aLeft : quantity D) (aRight : quantity RDIM)
  : option { P : dimension_t & quantity P } :=
  P <- dimension_product_t D RDIM ;;
  r <- construct (D := P) (value_mul (get_standard aLeft) (get_standard aRight)) ;;
  Some (existT _ P r).
Definition div {D RDIM} (aLeft : quantity D) (aRight : quantity RDIM)
  : option { P : dimension_t & quantity P } :=
  P <- dimension_quotient_t D RDIM ;;
  r <- construct (D := P) (value_div (get_standard aLeft) (get_standard aRight)) ;;
  Some (existT _ P r).

(** Scaling by a raw value. *)
Definition mul_value {D} (aLeft : quantity D) (aRight : T) : quantity D :=
  with_value aLeft (value_mul (get_standard aLeft) aRight).
Definition value_mul_quantity {D} (aLeft : T) (aRight : quantity D) : quantity D :=
  with_value aRight (value_mul aLeft (get_standard aRight)).
Definition div_value {D} (aLeft : quantity D) (aRight : T) : quantity D :=
  with_value aLeft (value_div (get_standard aLeft) aRight).
Definition value_div_quantity {D} (aLeft : T) (aRight : quantity D)
  : option { P : dimension_t & quantity P } :=
  P <- dimension_inverse_t D ;;
  r <- construct (D := P) (value_div aLeft (get_standard aRight)) ;;
  Some (existT _ P r).

End Quantity.
Arguments quantity {T} D.
Arguments in_place {T D} _ _.
Arguments class_instantiated {T D} _.
Arguments mStandardValue {T D} _.
End Quantity.

(** ** LinearUnit.hpp *)

Module LinearUnit.
Import Quantity.
Section LinearUnit.
Context {T : Type} `{arithmetic T}.

(** The class [linear_unit<D, T>] names [quantity<D, T>] in an alias and in
    the declarations of its members only, which asks for no instantiation of
    that class: a linear unit exists at every dimension. *)
Record linear_unit (D : dimension_t) : Type := in_place {
  mConversionFactor : T
}.
Arguments in_place {D} _.
Arguments mConversionFactor {D} _.

(** [quantity_type = quantity<dimension, value_type>] *)
Local Abbreviation quantity_type D := (quantity (T := T) D).

(** [linear_unit() = default], with [mConversionFactor = 1] *)
Definition default (D : dimension_t) : linear_unit D := in_place value_one.

Definition conversion_factor {D} (u : linear_unit D) : T := mConversionFactor u.

Definition to_standard_value {D} (u : linear_unit D) (aValue : T) : T :=
  value_mul aValue (mConversionFactor u).

Definition from_standard_value {D} (u : linear_unit D) (aValue : T) : T :=
  value_div aValue (mConversionFactor u).

(** The call operator, [operator()(value_type aValue)]: its result is an
    object of [quantity_type]. *)
Definition call {D} (u : linear_unit D) (aValue : T) : option (quantity_type D) :=
  Quantity.construct (to_standard_value u aValue).

(** [get(quantity_type aQuantity)] *)
Definition get {D} (u : linear_unit D) (aQuantity : quantity_type D) : T :=
  from_standard_value u (Quantity.get_standard aQuantity).

Definition scaled_up {D} (u : linear_unit D) (aFactor : T) : linear_unit D :=
  in_place (value_mul (mConversionFactor u) aFactor).

Definition scaled_down {D} (u : linear_unit D) (aFactor : T) : linear_unit D :=
  in_place (value_div (mConversionFactor u) aFactor).

(** [operator*(const linear_unit&, const linear_unit<RDIM, value_type>&)] *)
Definition mul {D RDIM} (aLeft : linear_unit D) (aRight : linear_unit RDIM)
  : option { P : dimension_t & linear_unit P } :=
  P <- dimension_product_t D RDIM ;;
  Some (existT _ P
          (in_place (value_mul (conversion_factor aLeft) (conversion_factor aRight)))).

(** [operator/(const linear_unit&, const linear_unit<RDIM, value_type>&)] *)
Definition div {D RDIM} (aLeft : linear_unit D) (aRight : linear_unit RDIM)
  : option { P : dimension_t & linear_unit P } :=
  P <- dimension_quotient_t D RDIM ;;
  Some (existT _ P
          (in_place (value_div (conversion_factor aLeft) (conversion_factor aRight)))).

(** A linear unit satisfies [unit_type] for the quantities of its dimension. *)
#[export] Instance linear_unit_is_unit_type (D : dimension_t)
  : unit_type (linear_unit D) (quantity_type D) :=
  {| unit_get := get |}.

End LinearUnit.
Arguments linear_unit {T} D.
Arguments in_place {T D} _.
Arguments mConversionFactor {T D} _.
End LinearUnit.

(** ** Absolute.hpp *)

Module Absolute.
Import Quantity.

(** Line 107 spells the type of the left parameter of overload 3
    [quantity_type<dimension, T>].  [quantity_type] names a type, not a
    template, and takes no template arguments: the declaration is ill-formed
    and gives no operator. *)
Definition quantity_type_is_a_template : bool := false.

(** Line 135 defaults [operator==] with the return type [auto].  A defaulted
    [operator==] returns [bool]; declared otherwise it is ill-formed and
    gives no operator. *)
Definition defaulted_equality_returns_bool : bool := false.

Section Absolute.
Context {T : Type} `{arithmetic T}.

(** The class [absolute<D, T>] names [quantity<D, T>] in an alias and in the
    declarations of its friends only: an absolute exists at every
    dimension. *)
Record absolute (D : dimension_t) : Type := in_place {
  mStandardValue : T
}.
Arguments in_place {D} _.
Arguments mStandardValue {D} _.

(** [quantity_type = quantity<dimension, value_type>] *)
Local Abbreviation quantity_type D := (quantity (T := T) D).

Definition is_scalar (D : dimension_t) : bool := empty_dimension D.

(** [absolute() = default], with [mStandardValue = value_type()] *)
Definition default (D : dimension_t) : absolute D := in_place value_init.

Definition get_standard {D} (a : absolute D) : T := mStandardValue a.

Definition set_standard_value {D} (a : absolute D) (aValue : T) : absolute D :=
  in_place aValue.

(** [absolute::get(const UNIT& aUnit)]: the unit converts the absolute itself. *)
Class affine_unit_type (UNIT : Type) (D : dimension_t) (R : Type) : Type := {
  from_standard_value : UNIT -> absolute D -> R
}.
Definition get {D} {UNIT R : Type} `{affine_unit_type UNIT D R}
  (a : absolute D) (aUnit : UNIT) : R :=
  from_standard_value aUnit a.

(** In-place operators: the updated object. *)
Definition add_assign_value {D} (a : absolute D) (aValue : T) : option (absolute D) :=
  requires (is_scalar D) (in_place (value_add (mStandardValue a) aValue)).
Definition add_assign {D} (a : absolute D) (aOther : quantity_type D) : absolute D :=
  in_place (value_add (mStandardValue a) (Quantity.get_standard aOther)).
Definition sub_assign_value {D} (a : absolute D) (aValue : T) : option (absolute D) :=
  requires (is_scalar D) (in_place (value_sub (mStandardValue a) aValue)).
Definition sub_assign {D} (a : absolute D) (aOther : quantity_type D) : absolute D :=
  in_place (value_sub (mStandardValue a) (Quantity.get_standard aOther)).

(** Addition, overload 1: [operator+(const absolute&, const quantity_type&)] *)
Definition add {D} (aLeft : absolute D) (aRight : quantity_type D) : absolute D :=
  in_place (value_add (get_standard aLeft) (Quantity.get_standard aRight)).

(** Addition, overload 2: [operator+(const absolute&, T) requires is_scalar] *)
Definition add_value {D} (aLeft : absolute D) (aRight : T) : option (absolute D) :=
  requires (is_scalar D) (in_place (value_add (get_standard aLeft) aRight)).

(** Addition, overload 3:
    [operator+(const quantity_type<dimension, T>&, const absolute&) requires is_scalar].
    The comment above the overloads announces overloads 1 and 3 for all
    values and overloads 2 and 4 for scalars only.  The code gives the
    operator to no dimension, its parameter type being ill-formed; behind
    that it puts [requires is_scalar] on it, and its body,
    [{ std::in_place, aLeft + aRight.get_standard() }], is the quantity's
    scalar-only [operator+(quantity, T)] passed through the quantity's
    scalar-only conversion to [value_type]. *)
Definition quantity_add {D} (aLeft : quantity_type D) (aRight : absolute D)
  : option (absolute D) :=
  _ <- requires quantity_type_is_a_template tt ;;
  _ <- requires (is_scalar D) tt ;;
  sum <- Quantity.add_value aLeft (get_standard aRight) ;;
  aStandardValue <- Quantity.to_value sum ;;
  Some (in_place aStandardValue).


(** Subtraction, overload 1: [operator-(const absolute&, const absolute&)];
    its result is an object of [quantity_type]. *)
Definition sub {D} (aLeft aRight : absolute D) : option (quantity_type D) :=
  Quantity.construct (value_sub (get_standard aLeft) (get_standard aRight)).


(** Subtraction, overload 3: [operator-(const absolute&, value_type) requires is_scalar] *)
Definition sub_value {D} (aLeft : absolute D) (aRight : T) : option (absolute D) :=
  requires (is_scalar D) (in_place (value_sub (get_standard aLeft) aRight)).

(** [operator==(const absolute&, const absolute&) = default], declared
    [auto]: member-wise [==] if the declaration gave an operator. *)
Definition eq {D} (aLeft aRight : absolute D) : option bool :=
  requires defaulted_equality_returns_bool
    (value_eq (mStandardValue aLeft) (mStandardValue aRight)).



End Absolute.
Arguments absolute {T} D.
Arguments in_place {T D} _.
Arguments mStandardValue {T D} _.
End Absolute.

(** ** Exact magnitudes

    The laws of a magnitude type whose arithmetic is exact: a field, with
    [1 / x] as the inverse, and an [==] that decides equality.  [double] is
    not such a type; the rationals are. *)
Class exact_arithmetic (T : Type) `{arithmetic T} : Prop := {
  exact_field :
    field_theory value_init value_one value_add value_mul value_sub value_neg
                 value_div (value_div value_one) (@Logic.eq T);
  exact_eq : forall x y : T, value_eq x y = true <-> x = y
}.

#[export] Instance Qc_arithmetic : arithmetic Qc := {|
  value_init := Q2Qc 0;
  value_one := Q2Qc 1;
  value_add := Qcplus;
  value_sub := Qcminus;
  value_mul := Qcmult;
  value_div := Qcdiv;
  value_neg := Qcopp;
  value_eq := fun x y => Qeq_bool (this x) (this y)
|}.

(** [double], the default magnitude type: IEEE 754 binary64 with rounding to
    nearest, ties to even. *)
#[export] Instance double_arithmetic : arithmetic float := {|
  value_init := 0%float;
  value_one := 1%float;
  value_add := PrimFloat.add;
  value_sub := PrimFloat.sub;
  value_mul := PrimFloat.mul;
  value_div := PrimFloat.div;
  value_neg := PrimFloat.opp;
  value_eq := PrimFloat.eqb
|}.

(** ** CommonDimensions.hpp *)

Module CommonDimensions.

Definition standard_bases : base_types_t :=
  ["length"; "time"; "mass"; "angle"; "data"; "charge"; "temperature"]%string.

(** The type an accepted alias names. *)
Definition named (alias : option dimension_t) : dimension_t :=
  match alias with Some D => D | None => [] end.

Definition scalar_dimension : dimension_t :=
  Eval cbv in scalar_dimension_type_t standard_bases.
Definition length_dimension : dimension_t :=
  Eval cbv in named (unit_dimension_type_t standard_bases "length").
Definition time_dimension : dimension_t :=
  Eval cbv in named (unit_dimension_type_t standard_bases "time").
Definition mass_dimension : dimension_t :=
  Eval cbv in named (unit_dimension_type_t standard_bases "mass").

(** [DEFINE_PRODUCT] and [DEFINE_QUOTIENT] *)
Definition area_dimension : dimension_t :=
  Eval cbv in named (dimension_product_t length_dimension length_dimension).
Definition velocity_dimension : dimension_t :=
  Eval cbv in named (dimension_quotient_t length_dimension time_dimension).
Definition acceleration_dimension : dimension_t :=
  Eval cbv in named (dimension_quotient_t velocity_dimension time_dimension).
Definition force_dimension : dimension_t :=
  Eval cbv in named (dimension_product_t mass_dimension acceleration_dimension).
Definition energy_dimension : dimension_t :=
  Eval cbv in named (dimension_product_t force_dimension length_dimension).

End CommonDimensions.

(** ** CommonUnits.hpp, with the rationals in place of [double] *)

Module CommonUnits.
Import CommonDimensions LinearUnit.

Abbreviation linear_length_unit := (linear_unit (T := Qc) length_dimension).
Abbreviation linear_time_unit := (linear_unit (T := Qc) time_dimension).
Abbreviation linear_mass_unit := (linear_unit (T := Qc) mass_dimension).

Definition meters : linear_length_unit := LinearUnit.default length_dimension.
Definition kilometers : linear_length_unit := scaled_up meters (Q2Qc 1000).
Definition millimeters : linear_length_unit := scaled_down meters (Q2Qc 1000).
Definition inches : linear_length_unit := scaled_down meters (Q2Qc (393701 # 10000)).
Definition feet : linear_length_unit := scaled_up inches (Q2Qc 12).

Definition seconds : linear_time_unit := LinearUnit.default time_dimension.
Definition minutes : linear_time_unit := scaled_up seconds (Q2Qc 60).

Definition grams : linear_mass_unit := LinearUnit.in_place (Q2Qc (1 # 1000)).

End CommonUnits.

(** ** The specification's vocabulary *)

(** The spec's words for the product: at each basis position, the sum of the
    two exponents at that position. *)
Fixpoint exponent_sums (a b : list Z) : list Z :=
  match a, b with
  | x :: a', y :: b' => (x + y) :: exponent_sums a' b'
  | _, _ => []
  end.

(** The spec's words for the power, at one position: [den] evenly divides
    [e * num], and [q] is that quotient. *)
Definition exact_power (num den e q : Z) : Prop :=
  q * den = e * num.

(** What constant evaluation adds, at one position: [e * num] is an [int],
    and the division is not [INT_MIN / -1]. *)
Definition evaluable_power (num den e : Z) : Prop :=
  representable (e * num) = true /\ ~ (e * num = INT_MIN /\ den = -1).

(** The spec's words for the quotient: at each basis position, the
    difference of the two exponents at that position. *)
Fixpoint exponent_differences (a b : list Z) : list Z :=
  match a, b with
  | x :: a', y :: b' => (x - y) :: exponent_differences a' b'
  | _, _ => []
  end.

(** The product of [n] copies of [A], built with [dimension_product_t] from
    the scalar dimension of [A]'s basis (the product of no copy). *)
Fixpoint product_of_copies (A : dimension_t) (n : nat) : option dimension_t :=
  match n with
  | O => Some (scalar_dimension_type_t (base_types A))
  | S k => P <- product_of_copies A k ;; dimension_product_t P A
  end.

(** * Properties *)

(** ** Constant evaluation *)

Lemma representable_iff (z : Z) :
  representable z = true <-> INT_MIN <= z <= INT_MAX.
Proof.
  unfold representable. rewrite andb_true_iff, !Z.leb_le. tauto.
Qed.

Lemma constant_Some (z v : Z) :
  constant z = Some v <-> v = z /\ representable z = true.
Proof.
  unfold constant. destruct (representable z); split.
  - intros [= <-]. auto.
  - intros [-> _]. reflexivity.
  - discriminate.
  - intros [_ [=]].
Qed.

Lemma constant_None (z : Z) :
  constant z = None <-> representable z = false.
Proof.
  unfold constant. destruct (representable z); split; congruence.
Qed.

(** Truncating division of a representable dividend leaves the [int] range
    only at [INT_MIN / -1]. *)
Lemma quot_representable (p d : Z) :
  representable p = true -> d <> 0 ->
  (representable (Z.quot p d) = true <-> ~ (p = INT_MIN /\ d = -1)).
Proof.
  intros Hp Hd. apply representable_iff in Hp.
  rewrite representable_iff. unfold INT_MIN, INT_MAX in *.
  split.
  - intros Hq [-> ->]. vm_compute in Hq. destruct Hq as [_ Hq]. apply Hq. reflexivity.
  - intros Hne.
    destruct (Z.eq_dec d 1) as [-> | H1]; [ rewrite Z.quot_1_r; lia | ].
    destruct (Z.eq_dec d (-1)) as [-> | Hm1].
    + change (-1) with (- (1)). rewrite Z.quot_opp_r, Z.quot_1_r by lia. lia.
    + assert (Hq : Z.abs (Z.quot p d) <= Z.quot (Z.abs p) 2).
      { rewrite <- Z.quot_abs by exact Hd. apply Z.quot_le_compat_l; lia. }
      assert (Hh : Z.quot (Z.abs p) 2 <= Z.quot 2147483648 2).
      { apply Z.quot_le_mono; lia. }
      change (Z.quot 2147483648 2) with 1073741824 in Hh. lia.
Qed.

(** ** The dimension product *)

Lemma dimension_product_Some (A B P : dimension_t) :
  dimension_product A B = Some P <->
  base_types A = base_types B /\
  base_types P = base_types A /\
  exponents P = exponent_sums (exponents A) (exponents B) /\
  well_formed P.
Proof.
  unfold well_formed. revert B P.
  induction A as [| [bl el] A IH]; intros [| [br er] B] P; simpl.
  - split.
    + intros [= <-]. repeat split; constructor.
    + intros (_ & HP & _). destruct P; [ reflexivity | discriminate ].
  - split; [ discriminate | intros ([=] & _) ].
  - split; [ discriminate | intros ([=] & _) ].
  - destruct (String.eqb_spec bl br) as [-> | Hne].
    + unfold add.
      destruct (constant (el + er)) as [e |] eqn:He.
      * apply constant_Some in He. destruct He as [-> Hrep].
        destruct (dimension_product A B) as [rest |] eqn:Hrest.
        -- destruct (proj1 (IH B rest) Hrest) as (Hb & Hbr & Hex & Hwf).
           split.
           ++ intros [= <-]. simpl.
              repeat split; try (f_equal; assumption). constructor; assumption.
           ++ intros (Hb' & HbP & HeP & HwP).
              destruct P as [| [bp ep] P]; [ discriminate | ].
              simpl in *. injection HbP as -> HbP. injection HeP as -> HeP.
              injection Hb' as Hb'. inversion HwP; subst.
              assert (HP : dimension_product A B = Some P) by (apply IH; auto).
              rewrite Hrest in HP. injection HP as ->. reflexivity.
        -- split; [ discriminate | ].
           intros (Hb' & HbP & HeP & HwP).
           destruct P as [| [bp ep] P]; [ discriminate | ].
           simpl in *. injection HbP as -> HbP. injection HeP as -> HeP.
           injection Hb' as Hb'. inversion HwP; subst.
           assert (HP : dimension_product A B = Some P) by (apply IH; auto).
           congruence.
      * apply constant_None in He.
        split; [ discriminate | ].
        intros (_ & HbP & HeP & HwP).
        destruct P as [| [bp ep] P]; [ discriminate | ].
        simpl in *. injection HeP as -> HeP. inversion HwP; subst. congruence.
    + split; [ discriminate | ].
      intros ([= Hb _] & _). contradiction.
Qed.

Lemma dimension_product_defined (A B : dimension_t) :
  base_types A = base_types B ->
  Forall (fun s => representable s = true)
         (exponent_sums (exponents A) (exponents B)) ->
  exists P, dimension_product A B = Some P.
Proof.
  revert B.
  induction A as [| [bl el] A IH]; intros [| [br er] B]; simpl;
    try discriminate.
  - intros _ _. exists []. reflexivity.
  - intros [= -> Hb] Hall. inversion Hall as [| ? ? Hrep Hall']; subst.
    destruct (IH B Hb Hall') as [rest ->].
    rewrite String.eqb_refl. unfold add, constant. rewrite Hrep.
    eexists. reflexivity.
Qed.

(** C1 (as amended): the product of [A] and [B] is defined exactly when they
    are built over the identical ordered basis and every position-wise sum of
    exponents is an [int]; it is then the dimension over that basis whose
    exponent at each position is the sum of the two exponents there.  Over
    differing bases, and when a sum leaves the [int] range, there is no
    product. *)
Theorem dimension_product_t_characterized (A B : dimension_t) :
  (forall P : dimension_t,
      dimension_product_t A B = Some P <->
      base_types A = base_types B /\
      base_types P = base_types A /\
      exponents P = exponent_sums (exponents A) (exponents B) /\
      well_formed P) /\
  ((exists P : dimension_t, dimension_product_t A B = Some P) <->
   base_types A = base_types B /\
   Forall (fun s => representable s = true)
          (exponent_sums (exponents A) (exponents B))).
Proof.
  unfold dimension_product_t. split.
  - intros P. apply dimension_product_Some.
  - split.
    + intros [P HP]. apply dimension_product_Some in HP.
      destruct HP as (Hb & _ & Hex & Hwf). unfold well_formed in Hwf.
      rewrite Hex in Hwf. auto.
    + intros [Hb Hall]. apply dimension_product_defined; assumption.
Qed.

(** C1, as stated, fails: two well-formed dimensions over one basis whose
    product does not exist, [length<INT_MAX>] and [length<1>]. *)
Lemma dimension_product_t_overflow :
  let A := [BASE_T "length" INT_MAX] in
  let B := [BASE_T "length" 1] in
  well_formed A /\ well_formed B /\ base_types A = base_types B /\
  dimension_product_t A B = None.
Proof.
  unfold well_formed. simpl.
  repeat split; try (constructor; [ reflexivity | constructor ]).
Qed.

(** Over differing bases there is no product. *)
Lemma dimension_product_differing_bases (A B : dimension_t) :
  base_types A <> base_types B -> dimension_product_t A B = None.
Proof.
  intros Hne. destruct (dimension_product_t A B) as [P |] eqn:HP; [ | reflexivity ].
  apply dimension_product_Some in HP. tauto.
Qed.

Lemma dimension_product_comm (A B : dimension_t) :
  dimension_product A B = dimension_product B A.
Proof.
  revert B.
  induction A as [| [bl el] A IH]; intros [| [br er] B]; simpl; try reflexivity.
  rewrite (String.eqb_sym br bl).
  destruct (String.eqb_spec bl br) as [-> | _]; [ | reflexivity ].
  unfold add. rewrite (Z.add_comm er el), (IH B). reflexivity.
Qed.

Lemma dimension_product_assoc (A B C AB BC : dimension_t) :
  dimension_product A B = Some AB ->
  dimension_product B C = Some BC ->
  dimension_product AB C = dimension_product A BC.
Proof.
  revert B C AB BC.
  induction A as [| [ba ea] A IH]; intros [| [bb eb] B] C AB BC; simpl;
    try discriminate.
  - intros [= <-]. destruct C; [ intros [= <-]; reflexivity | discriminate ].
  - destruct (String.eqb_spec ba bb) as [-> | _]; [ | discriminate ].
    destruct (add ea eb) as [eab |] eqn:Hab; [ | discriminate ].
    destruct (dimension_product A B) as [AB' |] eqn:HAB; [ | discriminate ].
    intros [= <-].
    destruct C as [| [bc ec] C]; [ discriminate | ].
    destruct (String.eqb_spec bb bc) as [-> | _]; [ | discriminate ].
    destruct (add eb ec) as [ebc |] eqn:Hbc; [ | discriminate ].
    destruct (dimension_product B C) as [BC' |] eqn:HBC; [ | discriminate ].
    intros [= <-]. simpl. rewrite String.eqb_refl.
    unfold add in *.
    apply constant_Some in Hab, Hbc. destruct Hab as [-> _], Hbc as [-> _].
    rewrite (IH B C AB' BC' HAB HBC), Z.add_assoc. reflexivity.
Qed.

(** C8 (as amended): the dimension product is commutative, both sides being
    defined together; it is associative whenever the two inner products
    [product(A,B)] and [product(B,C)] are defined, and then the two outer
    products are defined together and equal. *)
Theorem dimension_product_t_comm_assoc (A B C : dimension_t) :
  dimension_product_t A B = dimension_product_t B A /\
  (forall AB BC : dimension_t,
      dimension_product_t A B = Some AB ->
      dimension_product_t B C = Some BC ->
      dimension_product_t AB C = dimension_product_t A BC).
Proof.
  split.
  - apply dimension_product_comm.
  - apply dimension_product_assoc.
Qed.

(** C8, as stated, fails for associativity: with exponents [INT_MAX], [1]
    and [-1] on one base, [product(product(A,B),C)] does not exist while
    [product(A,product(B,C))] is [A]. *)
Lemma dimension_product_t_not_assoc :
  let A := [BASE_T "length" INT_MAX] in
  let B := [BASE_T "length" 1] in
  let C := [BASE_T "length" (-1)] in
  (well_formed A /\ well_formed B /\ well_formed C) /\
  (AB <- dimension_product_t A B ;; dimension_product_t AB C) = None /\
  (BC <- dimension_product_t B C ;; dimension_product_t A BC) = Some A.
Proof.
  unfold well_formed. simpl.
  repeat split; constructor; (reflexivity || constructor).
Qed.

(** The product at the catalog's dimensions: [length * mass] against
    [mass * length], and [(length * length) * length] against
    [length * (length * length)]. *)
Lemma dimension_product_t_comm_assoc_lengths :
  dimension_product_t CommonDimensions.length_dimension CommonDimensions.mass_dimension
  = dimension_product_t CommonDimensions.mass_dimension CommonDimensions.length_dimension
  /\
  dimension_product_t CommonDimensions.area_dimension CommonDimensions.length_dimension
  = dimension_product_t CommonDimensions.length_dimension CommonDimensions.area_dimension.
Proof.
  split.
  - exact (proj1 (dimension_product_t_comm_assoc
                    CommonDimensions.length_dimension
                    CommonDimensions.mass_dimension
                    CommonDimensions.mass_dimension)).
  - apply (proj2 (dimension_product_t_comm_assoc
                    CommonDimensions.length_dimension
                    CommonDimensions.length_dimension
                    CommonDimensions.length_dimension));
      reflexivity.
Defined.

(** ** The rational power *)

Lemma power_position_accepted (num den e q : Z) :
  den <> 0 -> evaluable_power num den e -> exact_power num den e q ->
  mul e num = Some (e * num) /\
  rem (e * num) den = Some 0 /\
  div (e * num) den = Some q.
Proof.
  intros Hden [Hrep Hmin] Hq. unfold exact_power in Hq.
  assert (Hquot : Z.quot (e * num) den = q).
  { rewrite <- Hq. apply Z.quot_mul. exact Hden. }
  assert (Hrem : Z.rem (e * num) den = 0).
  { rewrite <- Hq. apply Z.rem_mul. exact Hden. }
  assert (Hrq : representable (Z.quot (e * num) den) = true).
  { apply quot_representable; assumption. }
  unfold mul, rem, div, constant.
  destruct (Z.eqb_spec den 0) as [-> | _]; [ contradiction | ].
  rewrite Hrep, Hrq, Hquot, Hrem. auto.
Qed.

Lemma power_position_evaluated (num den e p r : Z) :
  den <> 0 -> mul e num = Some p -> rem p den = Some r ->
  p = e * num /\ r = Z.rem p den /\ evaluable_power num den e /\
  div p den = Some (Z.quot p den).
Proof.
  intros Hden Hp Hr. unfold mul in Hp. apply constant_Some in Hp.
  destruct Hp as [-> Hrep]. unfold rem, div in *.
  destruct (Z.eqb_spec den 0) as [-> | _]; [ contradiction | ].
  destruct (constant (Z.quot (e * num) den)) as [q |] eqn:Hq; [ | discriminate ].
  apply constant_Some in Hq. destruct Hq as [-> Hrq].
  injection Hr as <-. repeat split; try assumption.
  apply quot_representable; assumption.
Qed.

Lemma rem_zero_exact (p den : Z) :
  den <> 0 -> Z.rem p den = 0 -> Z.quot p den * den = p.
Proof.
  intros Hden Hrem. pose proof (Z.quot_rem' p den) as Heq.
  rewrite Hrem in Heq. lia.
Qed.

(** The constraint and the member of [dimension_exponent], position by
    position. *)
Lemma dimension_exponent_positions (num den : Z) (D P : dimension_t) :
  den <> 0 ->
  (is_valid_power_fold (exponents D) num den = Some true /\
   dimension_exponent_type D num den = Some P) <->
  (base_types P = base_types D /\
   Forall2 (fun e q => exact_power num den e q /\ evaluable_power num den e)
           (exponents D) (exponents P)).
Proof.
  intros Hden. revert P.
  induction D as [| [b e] D IH]; intros P; simpl.
  - split.
    + intros [_ [= <-]]. split; [ reflexivity | constructor ].
    + intros [HP _]. destruct P; [ auto | discriminate ].
  - split.
    + intros [Hfold Htype].
      destruct (mul e num) as [p |] eqn:Hp; [ | discriminate ].
      destruct (rem p den) as [r |] eqn:Hr; [ | discriminate ].
      destruct (power_position_evaluated num den e p r Hden Hp Hr)
        as (-> & Hrem & Hev & Hdiv).
      rewrite Hdiv in Htype.
      destruct (Z.eqb_spec r 0) as [-> | _]; [ | discriminate ].
      destruct (dimension_exponent_type D num den) as [rest |] eqn:Hrest;
        [ | discriminate ].
      injection Htype as <-.
      destruct (proj1 (IH rest) (conj Hfold eq_refl)) as [Hb Hall].
      simpl. split; [ f_equal; exact Hb | ].
      constructor; [ | exact Hall ].
      split; [ | exact Hev ].
      apply rem_zero_exact; [ exact Hden | symmetry; exact Hrem ].
    + intros [Hb Hall].
      destruct P as [| [bp q] P]; [ discriminate | ].
      simpl in Hb, Hall. injection Hb as -> Hb.
      inversion Hall as [| ? ? ? ? [Hq Hev] Hall']; subst.
      destruct (power_position_accepted num den e q Hden Hev Hq)
        as (Hmul & Hrem & Hdiv).
      rewrite Hmul, Hrem, Hdiv. simpl.
      destruct (proj2 (IH P) (conj Hb Hall')) as [Hfold Htype].
      rewrite Htype. auto.
Qed.

Lemma dimension_exponent_Some (A : dimension_t) (num den : Z) (P : dimension_t) :
  dimension_exponent A num den = Some P <->
  den <> 0 /\
  base_types P = base_types A /\
  Forall2 (fun e q => exact_power num den e q /\ evaluable_power num den e)
          (exponents A) (exponents P).
Proof.
  unfold dimension_exponent, is_valid_power.
  destruct (Z.eqb_spec den 0) as [-> | Hden]; simpl.
  - split; [ discriminate | intros [Hden _]; contradiction ].
  - rewrite <- (dimension_exponent_positions num den A P Hden).
    destruct (is_valid_power_fold (exponents A) num den) as [[|] |].
    + intuition congruence.
    + split; [ discriminate | intros (_ & [=] & _) ].
    + split; [ discriminate | intros (_ & [=] & _) ].
Qed.

Lemma dimension_exponent_defined (A : dimension_t) (num den : Z) :
  den <> 0 ->
  Forall (fun e => evaluable_power num den e /\ (den | e * num)) (exponents A) ->
  exists P, dimension_exponent A num den = Some P.
Proof.
  intros Hden Hall.
  assert (HP : exists P,
             base_types P = base_types A /\
             Forall2 (fun e q => exact_power num den e q /\ evaluable_power num den e)
                     (exponents A) (exponents P)).
  { induction A as [| [b e] A IH]; simpl in *.
    - exists []. split; [ reflexivity | constructor ].
    - inversion Hall as [| ? ? [Hev [q Hq]] Hall']; subst.
      destruct (IH Hall') as (P & Hb & HF).
      exists (BASE_T b q :: P). simpl. split; [ f_equal; exact Hb | ].
      constructor; [ | exact HF ].
      split; [ unfold exact_power; lia | exact Hev ]. }
  destruct HP as (P & Hb & HF). exists P.
  apply dimension_exponent_Some. auto.
Qed.

(** C2 (as amended): [power(A, num, den)] is defined exactly when [den] is
    nonzero and, at every basis position, the product [e * num] is an [int],
    the division is not [INT_MIN / -1], and [den] evenly divides [e * num];
    the result then has the same basis and the exact quotient
    [(e * num) / den] at each position.  In every other case there is no
    result: nothing is rounded. *)
Theorem dimension_exponent_t_characterized (A : dimension_t) (num den : Z) :
  (forall P : dimension_t,
      dimension_exponent_t A num den = Some P <->
      den <> 0 /\
      base_types P = base_types A /\
      Forall2 (fun e q => exact_power num den e q /\ evaluable_power num den e)
              (exponents A) (exponents P)) /\
  ((exists P : dimension_t, dimension_exponent_t A num den = Some P) <->
   den <> 0 /\
   Forall (fun e => evaluable_power num den e /\ (den | e * num)) (exponents A)).
Proof.
  unfold dimension_exponent_t. split.
  - intros P. apply dimension_exponent_Some.
  - split.
    + intros [P HP]. apply dimension_exponent_Some in HP.
      destruct HP as (Hden & _ & HF). split; [ exact Hden | ].
      induction HF as [| e q es qs [Hq Hev] _ IH]; constructor; [ | exact IH ].
      split; [ exact Hev | ]. exists q. unfold exact_power in Hq. lia.
    + intros [Hden Hall]. apply dimension_exponent_defined; assumption.
Qed.

(** C2, as stated, fails: [den = 1] is nonzero and divides [65536 * 65536],
    yet the power of [length<65536>] by [65536 / 1] is rejected, the product
    of the exponent and the numerator not being an [int]. *)
Lemma dimension_exponent_t_overflow :
  let A := [BASE_T "length" 65536] in
  well_formed A /\ representable 65536 = true /\
  1 <> 0 /\ Forall (fun e => (1 | e * 65536)) (exponents A) /\
  dimension_exponent_t A 65536 1 = None.
Proof.
  unfold well_formed. simpl. repeat split.
  - constructor; [ reflexivity | constructor ].
  - discriminate.
  - constructor; [ apply Z.divide_1_l | constructor ].
Qed.

(** Scenario 5: the square root of a dimension with an odd exponent. *)
Example square_root_of_length_rejected :
  dimension_exponent_t CommonDimensions.length_dimension 1 2 = None.
Proof. reflexivity. Qed.

Example square_root_of_area :
  dimension_exponent_t CommonDimensions.area_dimension 1 2
  = Some CommonDimensions.length_dimension.
Proof. reflexivity. Qed.

(** ** Inverse, quotient and the scalar dimension *)

Lemma scalar_dimension_type_bases (bs : base_types_t) :
  base_types (scalar_dimension_type bs) = bs.
Proof.
  unfold base_types, scalar_dimension_type. rewrite map_map. simpl. apply map_id.
Qed.

Lemma scalar_dimension_type_exponents (bs : base_types_t) :
  exponents (scalar_dimension_type bs) = map (fun _ => 0) bs.
Proof.
  unfold exponents, scalar_dimension_type. rewrite map_map. reflexivity.
Qed.

Lemma scalar_dimension_type_well_formed (bs : base_types_t) :
  well_formed (scalar_dimension_type bs).
Proof.
  unfold well_formed. rewrite scalar_dimension_type_exponents.
  induction bs; simpl; constructor; [ reflexivity | assumption ].
Qed.

Lemma exponent_sums_with_negation (es qs : list Z) :
  Forall2 (fun e q => exact_power (-1) 1 e q /\ evaluable_power (-1) 1 e) es qs ->
  qs = map Z.opp es /\ exponent_sums es qs = map (fun _ => 0) es.
Proof.
  induction 1 as [| e q es qs [Hq _] _ [IHq IHs]]; simpl.
  - auto.
  - unfold exact_power in Hq. rewrite IHs, <- IHq.
    split; f_equal; lia.
Qed.

Lemma dimension_inverse_t_Some (A I : dimension_t) :
  dimension_inverse_t A = Some I ->
  base_types I = base_types A /\
  exponents I = map Z.opp (exponents A) /\
  dimension_product_t A I = Some (scalar_dimension_type_t (base_types A)).
Proof.
  unfold dimension_inverse_t. intros HI.
  apply (dimension_exponent_Some A (-1) 1 I) in HI.
  destruct HI as (_ & Hb & Hall).
  apply exponent_sums_with_negation in Hall. destruct Hall as [Hneg Hsum].
  repeat split; try assumption.
  apply dimension_product_Some. unfold scalar_dimension_type_t.
  rewrite scalar_dimension_type_bases, scalar_dimension_type_exponents, Hsum.
  repeat split.
  - symmetry. exact Hb.
  - unfold base_types, exponents. rewrite !map_map. reflexivity.
  - apply scalar_dimension_type_well_formed.
Qed.

Lemma dimension_inverse_t_defined (A : dimension_t) :
  well_formed A -> Forall (fun e => e <> INT_MIN) (exponents A) ->
  exists I, dimension_inverse_t A = Some I.
Proof.
  intros Hwf Hmin.
  exists (map (fun b => BASE_T (base_template b) (- base_exponent b)) A).
  apply (dimension_exponent_Some A (-1) 1). split; [ lia | ].
  split.
  - unfold base_types. rewrite map_map. reflexivity.
  - unfold well_formed, exponents in *. rewrite map_map. simpl.
    induction A as [| [b e] A IH]; simpl in *; constructor.
    + inversion Hwf as [| ? ? Hrep _]; inversion Hmin as [| ? ? Hne _]; subst.
      apply representable_iff in Hrep.
      unfold exact_power, evaluable_power. rewrite representable_iff.
      unfold INT_MIN, INT_MAX in *. lia.
    + inversion Hwf; inversion Hmin; subst. apply IH; assumption.
Qed.

(** C7 (as amended): for every dimension [A] none of whose exponents is
    [INT_MIN], the inverse of [A] exists and has every exponent negated,
    [product(A, inverse(A))] is the scalar dimension of [A]'s basis, and so is
    [quotient(A, A)]. *)
Theorem product_with_inverse_is_scalar (A : dimension_t) :
  well_formed A -> Forall (fun e => e <> INT_MIN) (exponents A) ->
  exists I,
    dimension_inverse_t A = Some I /\
    exponents I = map Z.opp (exponents A) /\
    dimension_product_t A I = Some (scalar_dimension_type_t (base_types A)) /\
    dimension_quotient_t A A = Some (scalar_dimension_type_t (base_types A)).
Proof.
  intros Hwf Hmin.
  destruct (dimension_inverse_t_defined A Hwf Hmin) as [I HI].
  destruct (dimension_inverse_t_Some A I HI) as (_ & Hneg & Hprod).
  exists I. repeat split; try assumption.
  unfold dimension_quotient_t. rewrite HI. exact Hprod.
Qed.

(** The velocity dimension, [length / time], against its inverse. *)
Lemma product_with_inverse_is_scalar_velocity :
  exists I,
    dimension_inverse_t CommonDimensions.velocity_dimension = Some I /\
    exponents I = map Z.opp (exponents CommonDimensions.velocity_dimension) /\
    dimension_product_t CommonDimensions.velocity_dimension I
    = Some CommonDimensions.scalar_dimension /\
    dimension_quotient_t CommonDimensions.velocity_dimension
                         CommonDimensions.velocity_dimension
    = Some CommonDimensions.scalar_dimension.
Proof.
  apply (product_with_inverse_is_scalar CommonDimensions.velocity_dimension).
  - unfold well_formed. simpl. repeat constructor.
  - simpl. repeat constructor; discriminate.
Defined.

(** C7, as stated, fails: [length<INT_MIN>] is a dimension without an
    inverse, so neither [product(A, inverse(A))] nor [quotient(A, A)]
    exists. *)
Lemma inverse_of_INT_MIN_rejected :
  let A := [BASE_T "length" INT_MIN] in
  well_formed A /\
  dimension_inverse_t A = None /\
  (I <- dimension_inverse_t A ;; dimension_product_t A I) = None /\
  dimension_quotient_t A A = None.
Proof.
  unfold well_formed. simpl. repeat split. constructor; [ reflexivity | constructor ].
Qed.

(** ** Scalar dimensions *)

Lemma is_same_v_eq (L R : dimension_t) : is_same_v L R = true <-> L = R.
Proof.
  revert R.
  induction L as [| [bl el] L IH]; intros [| [br er] R]; simpl;
    try (split; [ discriminate | intros [=] ]).
  - tauto.
  - unfold dimension_base_eqb. simpl.
    rewrite !andb_true_iff, String.eqb_eq, Z.eqb_eq, IH.
    split.
    + intros [[-> ->] ->]. reflexivity.
    + intros [= -> -> ->]. auto.
Qed.

Lemma dimension_exponent_t_zero (D : dimension_t) :
  dimension_exponent_t D 0 1 = Some (scalar_dimension_type_t (base_types D)).
Proof.
  unfold dimension_exponent_t, scalar_dimension_type_t.
  apply dimension_exponent_Some. split; [ lia | ].
  rewrite scalar_dimension_type_bases, scalar_dimension_type_exponents.
  split; [ reflexivity | ].
  unfold base_types, exponents. rewrite map_map.
  induction D as [| [b e] D IH]; simpl; constructor; [ | exact IH ].
  unfold exact_power, evaluable_power. rewrite Z.mul_0_r.
  split; [ reflexivity | ]. split; [ reflexivity | intros [[=] _] ].
Qed.

(** [is_empty(D)]: true exactly for the scalar dimension of [D]'s basis. *)
Lemma empty_dimension_iff (D : dimension_t) :
  empty_dimension D = true <-> D = scalar_dimension_type_t (base_types D).
Proof.
  unfold empty_dimension. rewrite dimension_exponent_t_zero. apply is_same_v_eq.
Qed.

(** ** Quantities, absolutes and linear units *)


Section Magnitudes.
Context {T : Type} `{arithmetic T}.

Import Quantity Absolute LinearUnit.

(** Two objects of the class are equal when their data members are. *)
Lemma quantity_ext (D : dimension_t) (a b : quantity (T := T) D) :
  Quantity.mStandardValue a = Quantity.mStandardValue b -> a = b.
Proof.
  destruct a as [ia va], b as [ib vb]. simpl. intros ->.
  f_equal. apply UIP_dec, bool_dec.
Qed.

Lemma construct_of (D : dimension_t) (q : quantity (T := T) D) (v : T) :
  Quantity.construct v = Some (Quantity.with_value q v).
Proof.
  unfold Quantity.construct.
  destruct (bool_dec (Quantity.instantiable D) true) as [inst | ninst].
  - f_equal. apply quantity_ext. reflexivity.
  - destruct ninst. exact (Quantity.class_instantiated q).
Qed.


Lemma construct_rejected (D : dimension_t) (v : T) :
  Quantity.instantiable D = false -> Quantity.construct (T := T) (D := D) v = None.
Proof.
  intros Hno. unfold Quantity.construct.
  destruct (bool_dec (Quantity.instantiable D) true) as [inst | _];
    [ congruence | reflexivity ].
Qed.



(** Overload 3 of [operator+] on absolutes, [Quantity + Absolute], exists at
    no dimension. *)
Lemma quantity_add_rejected (D : dimension_t)
  (q : quantity (T := T) D) (a : absolute (T := T) D) :
  Absolute.quantity_add q a = None.
Proof. reflexivity. Qed.


(** C5 (as amended): [A * B] exists exactly when [product(D1, D2)] does, is then a linear
    unit of that dimension, and its conversion factor is [fA * fB];
    likewise [A / B] with [quotient(D1, D2)] and [fA / fB]. *)
Theorem linear_unit_composition (D1 D2 : dimension_t)
  (A : linear_unit (T := T) D1) (B : linear_unit (T := T) D2) :
  ((forall P, dimension_product_t D1 D2 = Some P ->
      exists U : linear_unit P,
        LinearUnit.mul A B = Some (existT _ P U) /\
        conversion_factor U = value_mul (conversion_factor A) (conversion_factor B)) /\
   (dimension_product_t D1 D2 = None -> LinearUnit.mul A B = None)) /\
  ((forall P, dimension_quotient_t D1 D2 = Some P ->
      exists U : linear_unit P,
        LinearUnit.div A B = Some (existT _ P U) /\
        conversion_factor U = value_div (conversion_factor A) (conversion_factor B)) /\
   (dimension_quotient_t D1 D2 = None -> LinearUnit.div A B = None)).
Proof.
  unfold LinearUnit.mul, LinearUnit.div. repeat split.
  - intros P ->. eexists. split; reflexivity.
  - intros ->. reflexivity.
  - intros P ->. eexists. split; reflexivity.
  - intros ->. reflexivity.
Qed.

Section Exact.
Context `{!exact_arithmetic T}.






End Exact.
End Magnitudes.

(** ** The rationals as an exact magnitude type *)

#[export] Instance Qc_exact_arithmetic : exact_arithmetic Qc.
Proof.
  split.
  - split.
    + exact Qcrt.
    + exact Q_apart_0_1.
    + intros p q. simpl. unfold Qcdiv. rewrite Qcmult_1_l. reflexivity.
    + intros p Hp. simpl. unfold Qcdiv. rewrite Qcmult_1_l.
      apply Qcmult_inv_l. exact Hp.
  - intros x y. simpl. rewrite Qeq_bool_iff. split.
    + apply Qc_is_canon.
    + intros ->. reflexivity.
Qed.

Lemma Qc_nonzero (q : Q) : Qeq_bool (Qred q) 0 = false -> Q2Qc q <> Q2Qc 0.
Proof.
  intros Hq Heq. apply (f_equal this) in Heq. simpl in Heq.
  rewrite Heq in Hq. discriminate.
Qed.

Section Examples.
Import CommonDimensions CommonUnits Quantity Absolute LinearUnit.






(** [meters * meters] is a unit of area, [kilometers / minutes] a unit of
    velocity. *)
Lemma linear_unit_composition_meters_seconds :
  (exists U : linear_unit area_dimension,
      LinearUnit.mul meters meters = Some (existT _ area_dimension U) /\
      conversion_factor U
      = value_mul (conversion_factor meters) (conversion_factor meters)) /\
  (exists U : linear_unit velocity_dimension,
      LinearUnit.div kilometers minutes = Some (existT _ velocity_dimension U) /\
      conversion_factor U
      = value_div (conversion_factor kilometers) (conversion_factor minutes)).
Proof.
  split.
  - apply (proj1 (proj1 (linear_unit_composition
                           length_dimension length_dimension meters meters))).
    reflexivity.
  - apply (proj1 (proj2 (linear_unit_composition
                           length_dimension time_dimension kilometers minutes))).
    reflexivity.
Defined.

(** C5, as stated, fails: the units of [length<INT_MAX>] and of [length<1>]
    exist, their dimensions are over one basis, and neither their product
    nor the quotient of the first by the unit of [length<-1>] does. *)
Lemma linear_unit_product_overflow :
  let A : linear_unit (T := Qc) [BASE_T "length" INT_MAX] := LinearUnit.default _ in
  let B : linear_unit (T := Qc) [BASE_T "length" 1] := LinearUnit.default _ in
  let C : linear_unit (T := Qc) [BASE_T "length" (-1)] := LinearUnit.default _ in
  (well_formed [BASE_T "length" INT_MAX] /\ well_formed [BASE_T "length" 1] /\
   well_formed [BASE_T "length" (-1)]) /\
  LinearUnit.mul A B = None /\ LinearUnit.div A C = None.
Proof.
  unfold well_formed. simpl.
  repeat split; constructor; (reflexivity || constructor).
Qed.





(** C3, on the code: for the length dimension, which is not scalar, the
    overload [Quantity + Absolute] is rejected, while the mirrored
    [Absolute + Quantity] gives the absolute with the sum of the two standard
    values; the shipped declaration of the overload gives no operator at the
    scalar dimension either, where the mirrored one gives the sum again. *)
Theorem quantity_plus_absolute_rejected_for_length :
  let q : quantity length_dimension :=
    Quantity.in_place (D := length_dimension) eq_refl (Q2Qc 2) in
  let a : absolute length_dimension := Absolute.in_place (Q2Qc 3) in
  let q0 : quantity scalar_dimension :=
    Quantity.in_place (D := scalar_dimension) eq_refl (Q2Qc 2) in
  let a0 : absolute scalar_dimension := Absolute.in_place (Q2Qc 3) in
  Absolute.is_scalar length_dimension = false /\
  Absolute.quantity_add q a = None /\
  Absolute.add a q = Absolute.in_place (Q2Qc 5) /\
  Absolute.quantity_add q0 a0 = None /\
  Absolute.add a0 q0 = Absolute.in_place (Q2Qc 5).
Proof.
  cbv zeta. rewrite !quantity_add_rejected.
  assert (H32 : Qcplus (Q2Qc 3) (Q2Qc 2) = Q2Qc 5) by (apply Qc_is_canon; reflexivity).
  unfold Absolute.add, Absolute.get_standard, Quantity.get_standard. simpl.
  rewrite H32. repeat split.
Qed.

(** Quantities of the catalog's dimensions, to name the class of a result. *)
Let a_length : quantity (T := Qc) length_dimension :=
  Quantity.in_place (D := length_dimension) eq_refl (Q2Qc 0).
Let a_time : quantity (T := Qc) time_dimension :=
  Quantity.in_place (D := time_dimension) eq_refl (Q2Qc 0).
Let a_velocity : quantity (T := Qc) velocity_dimension :=
  Quantity.in_place (D := velocity_dimension) eq_refl (Q2Qc 0).

(** Scenario 1: [kilometers(5).get(meters) == 5000]. *)
Example kilometers_in_meters :
  option_map (fun q => Quantity.get q meters) (call kilometers (Q2Qc 5))
  = Some (Q2Qc 5000).
Proof.
  unfold call. rewrite (construct_of length_dimension a_length). simpl.
  f_equal; try (apply Qc_is_canon; reflexivity).
Qed.

(** Scenario 2: [feet(1).get(inches)] is 12, exactly so in the rationals. *)
Example feet_in_inches :
  option_map (fun q => Quantity.get q inches) (call feet (Q2Qc 1))
  = Some (Q2Qc 12).
Proof.
  unfold call. rewrite (construct_of length_dimension a_length). simpl.
  f_equal; try (apply Qc_is_canon; reflexivity).
Qed.

(** Scenario 3: [meters(10) / seconds(2)] is a velocity of standard value 5. *)
Example meters_per_second :
  (a <- call meters (Q2Qc 10) ;; b <- call seconds (Q2Qc 2) ;; Quantity.div a b)
  = Some (existT _ velocity_dimension
                 (Quantity.in_place (D := velocity_dimension) eq_refl (Q2Qc 5))).
Proof.
  unfold call.
  rewrite (construct_of length_dimension a_length),
    (construct_of time_dimension a_time).
  unfold Quantity.div.
  change (dimension_quotient_t length_dimension time_dimension)
    with (Some velocity_dimension).
  cbv beta iota. rewrite (construct_of velocity_dimension a_velocity).
  do 2 f_equal. apply quantity_ext. simpl. apply Qc_is_canon. reflexivity.
Qed.

(** A default-constructed quantity of rationals holds 0. *)
Example default_quantity_is_zero :
  option_map Quantity.get_standard (Quantity.default (T := Qc) length_dimension)
  = Some (Q2Qc 0).
Proof.
  unfold Quantity.default. rewrite (construct_of length_dimension a_length).
  reflexivity.
Qed.

End Examples.

(** * Further properties of the dimension algebra *)

Lemma dimension_ext (P Q : dimension_t) :
  base_types P = base_types Q -> exponents P = exponents Q -> P = Q.
Proof.
  revert Q.
  induction P as [| [bp ep] P IH]; intros [| [bq eq] Q]; simpl;
    try discriminate; [ reflexivity | ].
  intros [= -> Hb] [= -> He]. f_equal. apply IH; assumption.
Qed.

Lemma option_ext {A : Type} (o1 o2 : option A) :
  (forall x, o1 = Some x <-> o2 = Some x) -> o1 = o2.
Proof.
  intros Hx. destruct o1 as [a |], o2 as [b |]; try reflexivity.
  - symmetry. apply Hx. reflexivity.
  - symmetry. apply Hx. reflexivity.
  - apply Hx. reflexivity.
Qed.

Lemma exponents_length (A B : dimension_t) :
  base_types A = base_types B -> List.length (exponents A) = List.length (exponents B).
Proof.
  intros Hb. unfold exponents. rewrite !List.length_map.
  rewrite <- (List.length_map base_template A), <- (List.length_map base_template B).
  unfold base_types in Hb. rewrite Hb. reflexivity.
Qed.

Lemma exponent_sums_zeros (A : dimension_t) :
  exponent_sums (exponents A) (exponents (scalar_dimension_type (base_types A)))
  = exponents A.
Proof.
  induction A as [| [b e] A IH]; simpl; [ reflexivity | ].
  rewrite IH. f_equal. lia.
Qed.

Lemma exponent_sums_comm (a b : list Z) :
  exponent_sums a b = exponent_sums b a.
Proof.
  revert b. induction a as [| x a IH]; intros [| y b]; simpl; try reflexivity.
  rewrite IH. f_equal. lia.
Qed.

Lemma exponent_sums_opp (a b : list Z) :
  exponent_sums a (map Z.opp b) = exponent_differences a b.
Proof.
  revert b. induction a as [| x a IH]; intros [| y b]; simpl; try reflexivity.
  rewrite IH. reflexivity.
Qed.

Lemma exponent_sums_cancel (a b : list Z) :
  List.length a = List.length b ->
  exponent_sums (exponent_sums a b) (map Z.opp b) = a.
Proof.
  revert b. induction a as [| x a IH]; intros [| y b]; simpl;
    try discriminate; [ reflexivity | ].
  intros [= Hl]. rewrite (IH b Hl). f_equal. lia.
Qed.

Lemma zero_exponents_scalar (D : dimension_t) :
  D = scalar_dimension_type_t (base_types D) <->
  Forall (fun e => e = 0) (exponents D).
Proof.
  unfold scalar_dimension_type_t. split.
  - intros HD. rewrite HD, scalar_dimension_type_exponents.
    apply Forall_forall. intros e He. apply in_map_iff in He.
    destruct He as (_ & <- & _). reflexivity.
  - intros Hz. apply dimension_ext.
    + rewrite scalar_dimension_type_bases. reflexivity.
    + rewrite scalar_dimension_type_exponents.
      unfold base_types, exponents in *. rewrite map_map.
      induction D as [| [b e] D IH]; simpl in *; [ reflexivity | ].
      inversion Hz; subst. f_equal. apply IH. assumption.
Qed.

(** X1: a dimension satisfies [empty_dimension] exactly when all its
    exponents are zero, that is, when it is the scalar dimension of its own
    basis. *)
Theorem empty_dimension_characterized (D : dimension_t) :
  (empty_dimension D = true <-> Forall (fun e => e = 0) (exponents D)) /\
  (empty_dimension D = true <-> D = scalar_dimension_type_t (base_types D)).
Proof.
  split.
  - rewrite empty_dimension_iff. apply zero_exponents_scalar.
  - apply empty_dimension_iff.
Qed.

(** ** Unit dimensions *)

Lemma unit_dimension_type_Some (bs : base_types_t) (b : string) (D : dimension_t) :
  unit_dimension_type bs b = Some D ->
  In b bs /\ base_types D = bs /\ well_formed D /\
  In (BASE_T b 1) D /\ empty_dimension D = false.
Proof.
  unfold unit_dimension_type.
  destruct (existsb (fun x => String.eqb x b) bs) eqn:Hex; [ | discriminate ].
  intros [= <-]. apply existsb_exists in Hex. destruct Hex as (x & Hin & Hx).
  apply String.eqb_eq in Hx. subst x.
  assert (Hmem : In (BASE_T b 1)
                    (map (fun x => BASE_T x (if String.eqb x b then 1 else 0)) bs)).
  { apply in_map_iff. exists b. rewrite String.eqb_refl. auto. }
  repeat split.
  - exact Hin.
  - unfold base_types. rewrite map_map. simpl. apply map_id.
  - unfold well_formed, exponents. rewrite map_map. simpl.
    apply Forall_forall. intros e He. apply in_map_iff in He.
    destruct He as (x & <- & _). destruct (String.eqb x b); reflexivity.
  - exact Hmem.
  - destruct (empty_dimension _) eqn:He; [ | reflexivity ].
    apply empty_dimension_iff, zero_exponents_scalar in He.
    rewrite Forall_forall in He.
    specialize (He 1). discriminate He.
    unfold exponents. apply in_map_iff. exists (BASE_T b 1). auto.
Qed.

(** X2: [unit_dimension_type_t] is accepted exactly when the base is a member
    of the basis (its [static_assert]); the dimension it names is over that
    basis, has [int] exponents, carries the base at exponent 1, and is never
    a scalar dimension. *)
Theorem unit_dimension_type_t_characterized (bs : base_types_t) (b : string) :
  ((exists D, unit_dimension_type_t bs b = Some D) <-> In b bs) /\
  (forall D, unit_dimension_type_t bs b = Some D ->
     base_types D = bs /\ well_formed D /\
     In (BASE_T b 1) D /\ empty_dimension D = false).
Proof.
  unfold unit_dimension_type_t. split.
  - split.
    + intros [D HD]. apply unit_dimension_type_Some in HD. tauto.
    + intros Hin. unfold unit_dimension_type.
      assert (Hex : existsb (fun x => String.eqb x b) bs = true).
      { apply existsb_exists. exists b. rewrite String.eqb_refl. auto. }
      rewrite Hex. eexists. reflexivity.
  - intros D HD. apply unit_dimension_type_Some in HD. tauto.
Qed.

(** ** Neutral element, inverse and quotient *)

Lemma dimension_product_scalar_r (A : dimension_t) :
  well_formed A ->
  dimension_product A (scalar_dimension_type (base_types A)) = Some A.
Proof.
  intros Hwf. apply dimension_product_Some.
  rewrite scalar_dimension_type_bases, exponent_sums_zeros. auto.
Qed.

(** X3: the scalar dimension of [A]'s basis is the neutral element of the
    product, on either side, for every dimension [A] with [int] exponents. *)
Theorem dimension_product_t_scalar (A : dimension_t) :
  well_formed A ->
  dimension_product_t A (scalar_dimension_type_t (base_types A)) = Some A /\
  dimension_product_t (scalar_dimension_type_t (base_types A)) A = Some A.
Proof.
  intros Hwf. unfold dimension_product_t, scalar_dimension_type_t.
  split.
  - apply dimension_product_scalar_r. exact Hwf.
  - rewrite dimension_product_comm. apply dimension_product_scalar_r. exact Hwf.
Qed.

Lemma dimension_product_t_scalar_force :
  dimension_product_t CommonDimensions.force_dimension CommonDimensions.scalar_dimension
  = Some CommonDimensions.force_dimension /\
  dimension_product_t CommonDimensions.scalar_dimension CommonDimensions.force_dimension
  = Some CommonDimensions.force_dimension.
Proof.
  apply (dimension_product_t_scalar CommonDimensions.force_dimension).
  unfold well_formed. simpl. repeat constructor.
Defined.

Lemma negation_positions (es qs : list Z) :
  Forall2 (fun e q => exact_power (-1) 1 e q /\ evaluable_power (-1) 1 e) es qs <->
  qs = map Z.opp es /\ Forall (fun e => representable (- e) = true) es.
Proof.
  unfold exact_power, evaluable_power. split.
  - induction 1 as [| e q es qs [Hq [Hrep _]] _ [IHq IHr]]; simpl.
    + auto.
    + split.
      * rewrite IHq. f_equal. lia.
      * constructor; [ | exact IHr ].
        replace (- e) with (e * -1) by lia. exact Hrep.
  - intros [-> Hall].
    induction Hall as [| e es Hrep _ IH]; simpl; constructor; [ | exact IH ].
    replace (e * -1) with (- e) by lia.
    repeat split; [ lia | exact Hrep | intros [_ [=]] ].
Qed.

Lemma dimension_inverse_t_iff (A I : dimension_t) :
  dimension_inverse_t A = Some I <->
  base_types I = base_types A /\
  exponents I = map Z.opp (exponents A) /\
  Forall (fun e => representable (- e) = true) (exponents A).
Proof.
  unfold dimension_inverse_t.
  rewrite dimension_exponent_Some, negation_positions.
  split; [ tauto | intros (Hb & He & Hr); repeat split; (assumption || lia) ].
Qed.

(** X4: the inverse is an involution: when the inverse [I] of a dimension [A]
    with [int] exponents exists, the inverse of [I] exists and is [A]. *)
Theorem dimension_inverse_t_involutive (A I : dimension_t) :
  well_formed A ->
  dimension_inverse_t A = Some I ->
  dimension_inverse_t I = Some A.
Proof.
  intros Hwf HI. apply dimension_inverse_t_iff in HI.
  destruct HI as (Hb & He & _).
  apply dimension_inverse_t_iff. repeat split.
  - symmetry. exact Hb.
  - rewrite He, map_map. symmetry. erewrite map_ext; [ apply map_id | ].
    intros e. apply Z.opp_involutive.
  - rewrite He. unfold well_formed in Hwf.
    apply Forall_forall. intros q Hq. apply in_map_iff in Hq.
    destruct Hq as (e & <- & Hin). rewrite Z.opp_involutive.
    rewrite Forall_forall in Hwf. apply Hwf. exact Hin.
Qed.

Lemma dimension_inverse_t_involutive_velocity :
  dimension_inverse_t
    (CommonDimensions.named (dimension_inverse_t CommonDimensions.velocity_dimension))
  = Some CommonDimensions.velocity_dimension.
Proof.
  apply (dimension_inverse_t_involutive CommonDimensions.velocity_dimension).
  - unfold well_formed. simpl. repeat constructor.
  - reflexivity.
Defined.

(** X5: [quotient(A, B)] is defined exactly when [A] and [B] are over the
    identical ordered basis, every exponent of [B] can be negated in [int],
    and every position-wise difference is an [int]; its exponents are those
    differences. *)
Theorem dimension_quotient_t_characterized (A B P : dimension_t) :
  dimension_quotient_t A B = Some P <->
  base_types A = base_types B /\
  base_types P = base_types A /\
  exponents P = exponent_differences (exponents A) (exponents B) /\
  well_formed P /\
  Forall (fun e => representable (- e) = true) (exponents B).
Proof.
  unfold dimension_quotient_t, dimension_product_t. split.
  - destruct (dimension_inverse_t B) as [I |] eqn:HI; [ | discriminate ].
    apply dimension_inverse_t_iff in HI. destruct HI as (Hb & He & Hr).
    intros HP. apply dimension_product_Some in HP.
    destruct HP as (HbA & HbP & HeP & Hwf).
    rewrite He, exponent_sums_opp in HeP. rewrite Hb in HbA. auto.
  - intros (HbA & HbP & HeP & Hwf & Hr).
    set (I := map (fun b => BASE_T (base_template b) (- base_exponent b)) B).
    assert (HI : dimension_inverse_t B = Some I).
    { apply dimension_inverse_t_iff. unfold I, base_types, exponents.
      rewrite !map_map. simpl. rewrite <- (map_map base_exponent Z.opp). auto. }
    rewrite HI. apply dimension_inverse_t_iff in HI.
    destruct HI as (Hb & He & _).
    apply dimension_product_Some.
    rewrite He, exponent_sums_opp, Hb. auto.
Qed.

Lemma quotient_of_product (A B P : dimension_t) :
  well_formed A -> well_formed B ->
  Forall (fun e => e <> INT_MIN) (exponents B) ->
  dimension_product_t A B = Some P ->
  dimension_quotient_t P B = Some A.
Proof.
  intros HwA HwB Hmin HP.
  destruct (dimension_inverse_t_defined B HwB Hmin) as [I HI].
  unfold dimension_quotient_t, dimension_product_t in *. rewrite HI.
  apply dimension_inverse_t_iff in HI. destruct HI as (Hb & He & _).
  apply dimension_product_Some in HP. destruct HP as (HbA & HbP & HeP & _).
  apply dimension_product_Some. rewrite He, HeP, Hb, HbP.
  repeat split; try assumption; try (symmetry; assumption).
  symmetry. apply exponent_sums_cancel, exponents_length, HbA.
Qed.

(** X6: dividing a product by one of its factors gives the other factor back:
    when [product(A, B)] is [P] and no exponent of [B] is [INT_MIN],
    [quotient(P, B)] is [A]. *)
Theorem dimension_quotient_t_of_product (A B P : dimension_t) :
  well_formed A -> well_formed B ->
  Forall (fun e => e <> INT_MIN) (exponents B) ->
  dimension_product_t A B = Some P ->
  dimension_quotient_t P B = Some A.
Proof.
  apply quotient_of_product.
Qed.

Lemma dimension_quotient_t_of_product_force :
  dimension_quotient_t CommonDimensions.force_dimension
                       CommonDimensions.acceleration_dimension
  = Some CommonDimensions.mass_dimension.
Proof.
  apply (dimension_quotient_t_of_product
           CommonDimensions.mass_dimension
           CommonDimensions.acceleration_dimension
           CommonDimensions.force_dimension).
  - unfold well_formed. simpl. repeat constructor.
  - unfold well_formed. simpl. repeat constructor.
  - simpl. repeat constructor; discriminate.
  - reflexivity.
Defined.

(** ** Integer powers as repeated products *)

Lemma integer_power_positions (n : Z) (es qs : list Z) :
  Forall2 (fun e q => exact_power n 1 e q /\ evaluable_power n 1 e) es qs <->
  qs = map (fun e => e * n) es /\
  Forall (fun q => representable q = true) (map (fun e => e * n) es).
Proof.
  unfold exact_power, evaluable_power. split.
  - induction 1 as [| e q es qs [Hq [Hrep _]] _ [IHq IHr]]; simpl.
    + auto.
    + split.
      * rewrite IHq. f_equal. lia.
      * constructor; assumption.
  - intros [-> Hall].
    induction es as [| e es IH]; simpl in *; constructor.
    + inversion Hall; subst. repeat split; [ lia | assumption | intros [_ [=]] ].
    + inversion Hall; subst. apply IH. assumption.
Qed.

Lemma exponent_sums_next_multiple (k : nat) (es : list Z) :
  exponent_sums (map (fun e => e * Z.of_nat k) es) es
  = map (fun e => e * Z.of_nat (S k)) es.
Proof.
  induction es as [| e es IH]; cbn [map exponent_sums]; [ reflexivity | ].
  rewrite IH. f_equal. rewrite Nat2Z.inj_succ. lia.
Qed.

Lemma representable_previous_multiple (k : nat) (e : Z) :
  representable (e * Z.of_nat (S k)) = true ->
  representable (e * Z.of_nat k) = true.
Proof.
  rewrite !representable_iff, Nat2Z.inj_succ. unfold INT_MIN, INT_MAX.
  intros Hr.
  destruct (Z_le_gt_dec 0 e) as [He | He].
  - pose proof (Z.mul_nonneg_nonneg e (Z.of_nat k) He (Nat2Z.is_nonneg k)). lia.
  - assert (H0 : e * Z.of_nat k <= 0).
    { apply Z.mul_nonpos_nonneg; [ lia | apply Nat2Z.is_nonneg ]. }
    lia.
Qed.

Lemma product_of_copies_Some (A : dimension_t) (n : nat) (P : dimension_t) :
  product_of_copies A n = Some P <->
  base_types P = base_types A /\
  exponents P = map (fun e => e * Z.of_nat n) (exponents A) /\
  well_formed P.
Proof.
  revert P. induction n as [| k IH]; intros P.
  - assert (Hz : exponents (scalar_dimension_type (base_types A))
                 = map (fun e => e * Z.of_nat 0) (exponents A)).
    { rewrite scalar_dimension_type_exponents. unfold base_types, exponents.
      rewrite !map_map. apply map_ext. intros b. simpl. lia. }
    simpl product_of_copies. unfold scalar_dimension_type_t. split.
    + intros [= <-]. rewrite scalar_dimension_type_bases.
      repeat split; [ exact Hz | apply scalar_dimension_type_well_formed ].
    + intros (Hb & He & _). f_equal. symmetry. apply dimension_ext.
      * rewrite scalar_dimension_type_bases. exact Hb.
      * rewrite Hz. exact He.
  - simpl product_of_copies. unfold dimension_product_t. split.
    + destruct (product_of_copies A k) as [Q |] eqn:HQ; [ | discriminate ].
      destruct (proj1 (IH Q) eq_refl) as (HbQ & HeQ & _).
      intros HP. apply dimension_product_Some in HP.
      destruct HP as (_ & HbP & HeP & Hwf).
      rewrite HeQ, exponent_sums_next_multiple in HeP.
      rewrite HbQ in HbP. auto.
    + intros (Hb & He & Hwf).
      set (Q := map (fun b => BASE_T (base_template b)
                                     (base_exponent b * Z.of_nat k)) A).
      assert (HbQ : base_types Q = base_types A).
      { unfold Q, base_types. rewrite map_map. reflexivity. }
      assert (HeQ : exponents Q = map (fun e => e * Z.of_nat k) (exponents A)).
      { unfold Q, exponents. rewrite !map_map. reflexivity. }
      assert (HQ : product_of_copies A k = Some Q).
      { apply IH. repeat split; try assumption.
        unfold well_formed in *. rewrite HeQ. rewrite He in Hwf.
        rewrite Forall_map in *. eapply Forall_impl; [ | exact Hwf ].
        intros e. apply representable_previous_multiple. }
      rewrite HQ. apply dimension_product_Some.
      rewrite HeQ, exponent_sums_next_multiple, HbQ. auto.
Qed.

(** X7: raising a dimension to the integer power [n / 1] is multiplying [n]
    copies of it: [power(A, n, 1)] and the [n]-fold product of [A] are
    defined together and equal, for every natural [n] (no copy giving the
    scalar dimension). *)
Theorem dimension_exponent_t_product_of_copies (A : dimension_t) (n : nat) :
  dimension_exponent_t A (Z.of_nat n) 1 = product_of_copies A n.
Proof.
  apply option_ext. intros P. unfold dimension_exponent_t.
  rewrite dimension_exponent_Some, integer_power_positions, product_of_copies_Some.
  unfold well_formed. split.
  - intros (_ & Hb & He & Hr). rewrite He. auto.
  - intros (Hb & He & Hr). rewrite He in Hr. repeat split; (assumption || lia).
Qed.

(** The cube of a length is a volume, three lengths multiplied. *)
Example cube_of_length :
  dimension_exponent_t CommonDimensions.length_dimension 3 1
  = (A <- dimension_product_t CommonDimensions.length_dimension
                              CommonDimensions.length_dimension ;;
     dimension_product_t A CommonDimensions.length_dimension).
Proof. reflexivity. Qed.

(** * Further properties of quantities, linear units and absolutes *)

(** The class [quantity] is instantiated exactly at the dimensions whose
    exponents can all be negated in [int]. *)
Lemma instantiable_iff (D : dimension_t) :
  Quantity.instantiable D = true <->
  Forall (fun e => representable (- e) = true) (exponents D).
Proof.
  unfold Quantity.instantiable. split.
  - destruct (dimension_inverse_t D) as [I |] eqn:HI; [ | discriminate ].
    intros _. apply dimension_inverse_t_iff in HI. tauto.
  - intros Hr.
    set (I := map (fun b => BASE_T (base_template b) (- base_exponent b)) D).
    assert (HI : dimension_inverse_t D = Some I).
    { apply dimension_inverse_t_iff. unfold I, base_types, exponents.
      rewrite !map_map. simpl. rewrite <- (map_map base_exponent Z.opp). auto. }
    rewrite HI. reflexivity.
Qed.

Lemma instantiable_scalar (bs : base_types_t) :
  Quantity.instantiable (scalar_dimension_type_t bs) = true.
Proof.
  apply instantiable_iff. unfold scalar_dimension_type_t.
  rewrite scalar_dimension_type_exponents.
  apply Forall_forall. intros e He. apply in_map_iff in He.
  destruct He as (_ & <- & _). reflexivity.
Qed.

Lemma instantiable_inverse (A I : dimension_t) :
  well_formed A -> dimension_inverse_t A = Some I ->
  Quantity.instantiable I = true.
Proof.
  intros Hwf HI. apply dimension_inverse_t_iff in HI.
  destruct HI as (_ & He & _). apply instantiable_iff. rewrite He.
  unfold well_formed in Hwf. rewrite Forall_forall in *.
  intros q Hq. apply in_map_iff in Hq. destruct Hq as (e & <- & Hin).
  rewrite Z.opp_involutive. apply Hwf. exact Hin.
Qed.

Lemma quotient_of_product_by_inverse (A B P I : dimension_t) :
  well_formed A ->
  dimension_product_t A B = Some P ->
  dimension_inverse_t B = Some I ->
  dimension_quotient_t P B = Some A.
Proof.
  intros HwA HP HI.
  unfold dimension_quotient_t, dimension_product_t in *. rewrite HI.
  apply dimension_inverse_t_iff in HI. destruct HI as (Hb & He & _).
  apply dimension_product_Some in HP. destruct HP as (HbA & HbP & HeP & _).
  apply dimension_product_Some. rewrite He, HeP, Hb, HbP.
  repeat split; try assumption; try (symmetry; assumption).
  symmetry. apply exponent_sums_cancel, exponents_length, HbA.
Qed.

Section ScalarOperations.
Context {T : Type} `{arithmetic T}.

Lemma construct_value (D : dimension_t) (v : T) (q : Quantity.quantity (T := T) D) :
  Quantity.construct v = Some q -> Quantity.get_standard q = v.
Proof.
  unfold Quantity.construct.
  destruct (bool_dec (Quantity.instantiable D) true); [ | discriminate ].
  intros [= <-]. reflexivity.
Qed.

(** X8: the operations of a quantity behind [requires is_scalar] (here the
    construction from a raw value, the conversion to the raw value, and the
    sum and difference with a raw value) are accepted exactly when every
    exponent of the dimension is zero; there, a raw value converted to a
    quantity and back is unchanged. *)
Theorem quantity_scalar_operations (D : dimension_t)
  (q : Quantity.quantity (T := T) D) (v : T) :
  ((exists q', Quantity.of_value D v = Some q') <->
   Forall (fun e => e = 0) (exponents D)) /\
  ((exists r, Quantity.to_value q = Some r) <->
   Forall (fun e => e = 0) (exponents D)) /\
  ((exists s, Quantity.add_value q v = Some s) <->
   Forall (fun e => e = 0) (exponents D)) /\
  ((exists s, Quantity.sub_value q v = Some s) <->
   Forall (fun e => e = 0) (exponents D)) /\
  (forall q', Quantity.of_value D v = Some q' -> Quantity.to_value q' = Some v).
Proof.
  unfold Quantity.of_value, Quantity.to_value, Quantity.add_value,
    Quantity.sub_value, Quantity.is_scalar, requires.
  rewrite (construct_of D q).
  rewrite <- zero_exponents_scalar, <- empty_dimension_iff.
  destruct (empty_dimension D); repeat split;
    try (intros [? [=]]); try discriminate; try (intros _; eexists; reflexivity).
  intros q' [= <-]. reflexivity.
Qed.

End ScalarOperations.

Section ExactLaws.
Context {T : Type} `{arithmetic T} `{!exact_arithmetic T}.

Import Quantity Absolute LinearUnit.

Add Field magnitude_field : exact_field.

Lemma value_one_nonzero : value_one <> value_init.
Proof. exact (F_1_neq_0 exact_field). Qed.

Ltac quantity_values :=
  unfold Quantity.add, Quantity.sub, Quantity.neg, Quantity.mul_value,
    Quantity.value_mul_quantity, Quantity.div_value, Quantity.with_value,
    Quantity.get_standard; simpl.

(** ** Quantity.hpp under exact arithmetic *)

(** X9: the quantities of one dimension form a commutative group under
    [+], unary [-] and the default-constructed quantity, and [-] undoes
    [+]. *)
Theorem quantity_additive_group (D : dimension_t)
  (q1 q2 q3 : Quantity.quantity (T := T) D) :
  Quantity.add q1 q2 = Quantity.add q2 q1 /\
  Quantity.add (Quantity.add q1 q2) q3 = Quantity.add q1 (Quantity.add q2 q3) /\
  (exists zero, Quantity.default D = Some zero /\
                Quantity.add q1 zero = q1 /\
                Quantity.add q1 (Quantity.neg q1) = zero) /\
  Quantity.sub (Quantity.add q1 q2) q2 = q1 /\
  Quantity.sub q1 q2 = Quantity.add q1 (Quantity.neg q2).
Proof.
  split; [ apply quantity_ext; quantity_values; ring | ].
  split; [ apply quantity_ext; quantity_values; ring | ].
  split.
  - exists (Quantity.with_value q1 value_init). split; [ | split ].
    + apply construct_of.
    + apply quantity_ext. quantity_values. ring.
    + apply quantity_ext. quantity_values. ring.
  - split; apply quantity_ext; quantity_values; ring.
Qed.

(** X10: scaling a quantity by a raw value: the two operand orders agree and
    scaling distributes over the sum of quantities, for every raw value;
    dividing by a nonzero raw value undoes multiplying by it, and
    conversely. *)
Theorem quantity_scaling (D : dimension_t)
  (q1 q2 : Quantity.quantity (T := T) D) (s : T) :
  Quantity.mul_value q1 s = Quantity.value_mul_quantity s q1 /\
  Quantity.mul_value (Quantity.add q1 q2) s
  = Quantity.add (Quantity.mul_value q1 s) (Quantity.mul_value q2 s) /\
  (s <> value_init ->
   Quantity.div_value (Quantity.mul_value q1 s) s = q1 /\
   Quantity.mul_value (Quantity.div_value q1 s) s = q1).
Proof.
  split; [ apply quantity_ext; quantity_values; ring | ].
  split; [ apply quantity_ext; quantity_values; ring | ].
  intros Hs. split; apply quantity_ext; quantity_values; field; exact Hs.
Qed.

(** X11: when the product of two quantities exists (the product of their
    dimensions does, and the class of quantities can be instantiated at it),
    dividing it by the second factor gives the first quantity back,
    dimension and standard value, provided the second factor is nonzero. *)
Theorem quantity_mul_then_div (D R : dimension_t)
  (a : Quantity.quantity (T := T) D) (b : Quantity.quantity (T := T) R)
  (ab : { P : dimension_t & Quantity.quantity (T := T) P }) :
  well_formed D ->
  Quantity.get_standard b <> value_init ->
  Quantity.mul a b = Some ab ->
  Quantity.div (projT2 ab) b = Some (existT _ D a).
Proof.
  intros HwD Hb Hab. unfold Quantity.mul in Hab.
  destruct (dimension_product_t D R) as [P |] eqn:HP; [ | discriminate ].
  destruct (Quantity.construct (D := P) _) as [r |] eqn:Hr; [ | discriminate ].
  injection Hab as <-. cbn [projT1 projT2].
  apply construct_value in Hr.
  assert (HI : exists I, dimension_inverse_t R = Some I).
  { pose proof (Quantity.class_instantiated b) as Hinst.
    unfold Quantity.instantiable in Hinst.
    destruct (dimension_inverse_t R) as [I |]; [ eauto | discriminate ]. }
  destruct HI as [I HI].
  unfold Quantity.div.
  rewrite (quotient_of_product_by_inverse D R P I HwD HP HI).
  rewrite (construct_of D a). do 2 f_equal.
  apply quantity_ext. rewrite Hr. quantity_values. field. exact Hb.
Qed.

(** X12: a raw one divided by a nonzero quantity is a quantity of the inverse
    dimension, and its product with the quantity is the scalar quantity of
    standard value one. *)
Theorem quantity_reciprocal (D : dimension_t) (q : Quantity.quantity (T := T) D) :
  well_formed D ->
  Forall (fun e => e <> INT_MIN) (exponents D) ->
  Quantity.get_standard q <> value_init ->
  exists one : Quantity.quantity (scalar_dimension_type_t (base_types D)),
    Quantity.get_standard one = value_one /\
    (r <- Quantity.value_div_quantity value_one q ;; Quantity.mul q (projT2 r))
    = Some (existT _ (scalar_dimension_type_t (base_types D)) one).
Proof.
  intros Hwf Hmin Hq.
  destruct (dimension_inverse_t_defined D Hwf Hmin) as [I HI].
  destruct (dimension_inverse_t_Some D I HI) as (_ & _ & HP).
  exists (Quantity.in_place (instantiable_scalar (base_types D)) value_one).
  split; [ reflexivity | ].
  unfold Quantity.value_div_quantity. rewrite HI.
  rewrite (construct_of I (Quantity.in_place (instantiable_inverse D I Hwf HI) value_one)).
  cbn [projT1 projT2]. unfold Quantity.mul. rewrite HP.
  rewrite (construct_of _ (Quantity.in_place (instantiable_scalar (base_types D))
                                             value_one)).
  do 2 f_equal. apply quantity_ext. quantity_values. field. exact Hq.
Qed.

(** ** LinearUnit.hpp under exact arithmetic *)

Ltac unit_values :=
  unfold Quantity.get; simpl;
  unfold LinearUnit.get, LinearUnit.from_standard_value,
    LinearUnit.to_standard_value, LinearUnit.scaled_up, LinearUnit.scaled_down,
    LinearUnit.default, LinearUnit.conversion_factor in *; simpl in *.

(** X13: the default-constructed linear unit is the standard unit of its
    dimension: a raw value is its own standard value, and a quantity read in
    that unit is its standard value. *)
Theorem default_linear_unit_is_standard (D : dimension_t)
  (v : T) (q : Quantity.quantity (T := T) D) :
  LinearUnit.conversion_factor (LinearUnit.default (T := T) D) = value_one /\
  (exists qv, LinearUnit.call (LinearUnit.default D) v = Some qv /\
              Quantity.get_standard qv = v) /\
  Quantity.get q (LinearUnit.default D) = Quantity.get_standard q.
Proof.
  split; [ reflexivity | ]. split.
  - exists (Quantity.with_value q v). split.
    + unfold LinearUnit.call. rewrite (construct_of D q). f_equal.
      apply quantity_ext. unit_values. ring.
    + reflexivity.
  - unit_values. field. exact value_one_nonzero.
Qed.

(** X14: [scaled_up] and [scaled_down] by one nonzero factor undo each other;
    the quantity [U.scaled_up(k)(v)] is [U(v * k)], both existing together,
    and read in [U] it is [v * k], while [U.scaled_down(k)(v)] read in [U]
    is [v / k]. *)
Theorem scaled_units (D : dimension_t) (U : LinearUnit.linear_unit (T := T) D)
  (k v : T) :
  k <> value_init ->
  LinearUnit.conversion_factor U <> value_init ->
  LinearUnit.scaled_down (LinearUnit.scaled_up U k) k = U /\
  LinearUnit.scaled_up (LinearUnit.scaled_down U k) k = U /\
  LinearUnit.call (LinearUnit.scaled_up U k) v = LinearUnit.call U (value_mul v k) /\
  (forall q, LinearUnit.call (LinearUnit.scaled_up U k) v = Some q ->
             Quantity.get q U = value_mul v k) /\
  (forall q, LinearUnit.call (LinearUnit.scaled_down U k) v = Some q ->
             Quantity.get q U = value_div v k).
Proof.
  intros Hk Hf. destruct U as [f].
  split; [ unit_values; f_equal; field; exact Hk | ].
  split; [ unit_values; f_equal; field; exact Hk | ].
  split; [ unfold LinearUnit.call; f_equal; unit_values; ring | ].
  split; intros q Hq; apply construct_value in Hq;
    unit_values; rewrite Hq; field; auto.
Qed.

(** X15: conversion through a linear unit is linear: the quantity of a sum
    of raw values is the sum of the quantities, and a sum of quantities read
    in a unit of nonzero factor is the sum of the readings. *)
Theorem linear_unit_is_linear (D : dimension_t)
  (U : LinearUnit.linear_unit (T := T) D) (x y : T)
  (q1 q2 : Quantity.quantity (T := T) D) :
  LinearUnit.conversion_factor U <> value_init ->
  (exists qx qy,
      LinearUnit.call U x = Some qx /\ LinearUnit.call U y = Some qy /\
      LinearUnit.call U (value_add x y) = Some (Quantity.add qx qy) /\
      LinearUnit.call U (value_mul x y) = Some (Quantity.mul_value qx y)) /\
  Quantity.get (Quantity.add q1 q2) U
  = value_add (Quantity.get q1 U) (Quantity.get q2 U) /\
  LinearUnit.call U (Quantity.get q1 U) = Some q1.
Proof.
  intros Hf. destruct U as [f]. unfold LinearUnit.call.
  split; [ | split ].
  - exists (Quantity.with_value q1 (value_mul x f)),
           (Quantity.with_value q1 (value_mul y f)).
    rewrite !(construct_of D q1).
    repeat split; try (f_equal; apply quantity_ext; unit_values;
                       unfold Quantity.get_standard; simpl; ring).
  - destruct q1 as [i1 v1], q2 as [i2 v2]. unit_values.
    unfold Quantity.get_standard. simpl. field. exact Hf.
  - rewrite (construct_of D q1). f_equal. apply quantity_ext.
    destruct q1 as [i1 v1]. unit_values.
    unfold Quantity.get_standard. simpl. field. exact Hf.
Qed.

(** X16: compound units agree with the arithmetic of quantities: the product
    of the quantities [A(x)] and [B(y)] is the quantity [(A * B)(x * y)],
    and, for nonzero [y] and a nonzero factor of [B], their quotient is
    [(A / B)(x / y)]; either side exists when the other does. *)
Theorem compound_unit_of_quantities (D1 D2 : dimension_t)
  (A : LinearUnit.linear_unit (T := T) D1)
  (B : LinearUnit.linear_unit (T := T) D2) (x y : T)
  (qa : Quantity.quantity (T := T) D1) (qb : Quantity.quantity (T := T) D2) :
  LinearUnit.call A x = Some qa ->
  LinearUnit.call B y = Some qb ->
  Quantity.mul qa qb
  = (U <- LinearUnit.mul A B ;;
     q <- LinearUnit.call (projT2 U) (value_mul x y) ;;
     Some (existT _ (projT1 U) q)) /\
  (y <> value_init -> LinearUnit.conversion_factor B <> value_init ->
   Quantity.div qa qb
   = (U <- LinearUnit.div A B ;;
      q <- LinearUnit.call (projT2 U) (value_div x y) ;;
      Some (existT _ (projT1 U) q))).
Proof.
  intros Ha Hb. apply construct_value in Ha, Hb. destruct A as [fA], B as [fB].
  unfold Quantity.mul, Quantity.div, LinearUnit.mul, LinearUnit.div,
    LinearUnit.call. rewrite Ha, Hb. unit_values.
  split.
  - destruct (dimension_product_t D1 D2) as [P |]; [ | reflexivity ].
    cbn [projT1 projT2].
    replace (value_mul (value_mul x fA) (value_mul y fB))
      with (value_mul (value_mul x y) (value_mul fA fB)) by ring.
    reflexivity.
  - intros Hy Hf.
    destruct (dimension_quotient_t D1 D2) as [P |]; [ | reflexivity ].
    cbn [projT1 projT2].
    replace (value_div (value_mul x fA) (value_mul y fB))
      with (value_mul (value_div x y) (value_div fA fB))
      by (field; split; assumption).
    reflexivity.
Qed.

(** X17: a compound unit of two units with nonzero factors converts a raw
    value to a quantity, whenever that quantity exists, and back without
    change, as a product and as a quotient of the two units. *)
Theorem compound_unit_round_trip (D1 D2 : dimension_t)
  (A : LinearUnit.linear_unit (T := T) D1)
  (B : LinearUnit.linear_unit (T := T) D2) (v : T) :
  LinearUnit.conversion_factor A <> value_init ->
  LinearUnit.conversion_factor B <> value_init ->
  (forall U q, LinearUnit.mul A B = Some U ->
               LinearUnit.call (projT2 U) v = Some q ->
               Quantity.get q (projT2 U) = v) /\
  (forall U q, LinearUnit.div A B = Some U ->
               LinearUnit.call (projT2 U) v = Some q ->
               Quantity.get q (projT2 U) = v).
Proof.
  intros HA HB. destruct A as [fA], B as [fB].
  unfold LinearUnit.mul, LinearUnit.div. unit_values.
  split; intros U q HU Hq.
  - destruct (dimension_product_t D1 D2) as [P |]; [ | discriminate ].
    injection HU as <-. cbn [projT1 projT2] in *.
    apply construct_value in Hq. unit_values. rewrite Hq.
    field. split; assumption.
  - destruct (dimension_quotient_t D1 D2) as [P |]; [ | discriminate ].
    injection HU as <-. cbn [projT1 projT2] in *.
    apply construct_value in Hq. unit_values. rewrite Hq.
    field. split; assumption.
Qed.

(** ** Absolute.hpp under exact arithmetic *)





End ExactLaws.

(** ** The further properties at the rationals and the catalog *)

Section FurtherExamples.
Import CommonDimensions CommonUnits Quantity Absolute LinearUnit.

Let length_q (v : Qc) : quantity (T := Qc) length_dimension :=
  Quantity.in_place (D := length_dimension) eq_refl v.
Let time_q (v : Qc) : quantity (T := Qc) time_dimension :=
  Quantity.in_place (D := time_dimension) eq_refl v.
Let scalar_q (v : Qc) : quantity (T := Qc) scalar_dimension :=
  Quantity.in_place (D := scalar_dimension) eq_refl v.

(** The base [length] is in the standard basis, [volume] is not a base. *)
Lemma unit_dimension_type_t_length :
  (exists D, unit_dimension_type_t standard_bases "length" = Some D) /\
  ~ (exists D, unit_dimension_type_t standard_bases "volume" = Some D).
Proof.
  split.
  - apply (proj1 (unit_dimension_type_t_characterized standard_bases "length")).
    simpl. auto.
  - intros Hex.
    apply (proj1 (unit_dimension_type_t_characterized standard_bases "volume")) in Hex.
    simpl in Hex. repeat destruct Hex as [Hex | Hex]; try discriminate Hex. exact Hex.
Defined.

(** A raw 5 as a scalar quantity and back. *)
Lemma quantity_scalar_operations_five :
  Quantity.to_value (scalar_q (Q2Qc 5)) = Some (Q2Qc 5).
Proof.
  apply (proj2 (proj2 (proj2 (proj2
           (quantity_scalar_operations scalar_dimension
              (scalar_q (Q2Qc 0)) (Q2Qc 5)))))).
  exact (construct_of scalar_dimension (scalar_q (Q2Qc 5)) (Q2Qc 5)).
Defined.

(** Lengths of 3, 4 and 5. *)
Lemma quantity_additive_group_lengths :
  Quantity.sub (Quantity.add (length_q (Q2Qc 3)) (length_q (Q2Qc 4)))
               (length_q (Q2Qc 4))
  = length_q (Q2Qc 3).
Proof.
  exact (proj1 (proj2 (proj2 (proj2
           (quantity_additive_group length_dimension
              (length_q (Q2Qc 3)) (length_q (Q2Qc 4)) (length_q (Q2Qc 5))))))).
Defined.

(** A length of 3 scaled by 2. *)
Lemma quantity_scaling_length :
  Quantity.div_value (Quantity.mul_value (length_q (Q2Qc 3)) (Q2Qc 2)) (Q2Qc 2)
  = length_q (Q2Qc 3).
Proof.
  refine (proj1 (proj2 (proj2
            (quantity_scaling length_dimension
               (length_q (Q2Qc 3)) (length_q (Q2Qc 4)) (Q2Qc 2))) _)).
  apply (Qc_nonzero 2). reflexivity.
Defined.

(** A length of 10 times a time of 2, divided by that time. *)
Lemma quantity_mul_then_div_length_time :
  let P := named (dimension_product_t length_dimension time_dimension) in
  let ab : quantity (T := Qc) P :=
    Quantity.in_place (D := P) eq_refl (Qcmult (Q2Qc 10) (Q2Qc 2)) in
  Quantity.mul (length_q (Q2Qc 10)) (time_q (Q2Qc 2)) = Some (existT _ P ab) /\
  Quantity.div ab (time_q (Q2Qc 2))
  = Some (existT _ length_dimension (length_q (Q2Qc 10))).
Proof.
  cbv zeta.
  assert (Hmul : Quantity.mul (length_q (Q2Qc 10)) (time_q (Q2Qc 2))
                 = Some (existT _ (named (dimension_product_t length_dimension
                                                              time_dimension))
                           (Quantity.in_place
                              (D := named (dimension_product_t length_dimension
                                                               time_dimension))
                              eq_refl (Qcmult (Q2Qc 10) (Q2Qc 2))))).
  { reflexivity. }
  split; [ exact Hmul | ].
  refine (quantity_mul_then_div length_dimension time_dimension
            (length_q (Q2Qc 10)) (time_q (Q2Qc 2)) _ _ _ Hmul).
  - unfold well_formed. simpl. repeat constructor.
  - apply (Qc_nonzero 2). reflexivity.
Defined.

(** The reciprocal of a time of 2 is a frequency. *)
Lemma quantity_reciprocal_time :
  exists one : quantity (T := Qc) scalar_dimension,
    Quantity.get_standard one = Q2Qc 1 /\
    (r <- Quantity.value_div_quantity (Q2Qc 1) (time_q (Q2Qc 2)) ;;
     Quantity.mul (time_q (Q2Qc 2)) (projT2 r))
    = Some (existT _ scalar_dimension one).
Proof.
  refine (quantity_reciprocal time_dimension (time_q (Q2Qc 2)) _ _ _).
  - unfold well_formed. simpl. repeat constructor.
  - simpl. repeat constructor; discriminate.
  - apply (Qc_nonzero 2). reflexivity.
Defined.

(** [meters] is the standard unit of length. *)
Lemma default_linear_unit_is_standard_meters :
  Quantity.get (length_q (Q2Qc 7)) meters = Q2Qc 7.
Proof.
  exact (proj2 (proj2
           (default_linear_unit_is_standard length_dimension (Q2Qc 0)
              (length_q (Q2Qc 7))))).
Defined.

(** [kilometers] against [meters]. *)
Lemma scaled_units_kilometers :
  call (scaled_up meters (Q2Qc 1000)) (Q2Qc 5)
  = call meters (Qcmult (Q2Qc 5) (Q2Qc 1000)).
Proof.
  refine (proj1 (proj2 (proj2
            (scaled_units length_dimension meters (Q2Qc 1000) (Q2Qc 5) _ _)))).
  - apply (Qc_nonzero 1000). reflexivity.
  - apply (Qc_nonzero 1). reflexivity.
Defined.

(** Two lengths read in [feet]. *)
Lemma linear_unit_is_linear_feet :
  Quantity.get (Quantity.add (length_q (Q2Qc 3)) (length_q (Q2Qc 4))) feet
  = Qcplus (Quantity.get (length_q (Q2Qc 3)) feet)
           (Quantity.get (length_q (Q2Qc 4)) feet).
Proof.
  refine (proj1 (proj2
            (linear_unit_is_linear length_dimension feet (Q2Qc 1) (Q2Qc 2)
               (length_q (Q2Qc 3)) (length_q (Q2Qc 4)) _))).
  apply (Qc_nonzero ((1 / (393701 # 10000)) * 12)). reflexivity.
Defined.

(** [kilometers(10) * minutes(2)] is [(kilometers * minutes)(10 * 2)]. *)
Lemma compound_unit_of_quantities_speed :
  let qa := length_q (to_standard_value kilometers (Q2Qc 10)) in
  let qb := time_q (to_standard_value minutes (Q2Qc 2)) in
  (call kilometers (Q2Qc 10) = Some qa /\ call minutes (Q2Qc 2) = Some qb) /\
  Quantity.mul qa qb
  = (U <- LinearUnit.mul kilometers minutes ;;
     q <- call (projT2 U) (Qcmult (Q2Qc 10) (Q2Qc 2)) ;;
     Some (existT _ (projT1 U) q)).
Proof.
  cbv zeta.
  assert (Ha : call kilometers (Q2Qc 10)
               = Some (length_q (to_standard_value kilometers (Q2Qc 10)))).
  { exact (construct_of length_dimension
             (length_q (to_standard_value kilometers (Q2Qc 10))) _). }
  assert (Hb : call minutes (Q2Qc 2)
               = Some (time_q (to_standard_value minutes (Q2Qc 2)))).
  { exact (construct_of time_dimension
             (time_q (to_standard_value minutes (Q2Qc 2))) _). }
  split; [ split; assumption | ].
  exact (proj1 (compound_unit_of_quantities length_dimension time_dimension
                  kilometers minutes (Q2Qc 10) (Q2Qc 2) _ _ Ha Hb)).
Defined.

(** Scenario 4, with [kilometers / minutes]. *)
Lemma compound_unit_round_trip_kilometers_minutes :
  let f := Qcdiv (conversion_factor kilometers) (conversion_factor minutes) in
  let U : linear_unit (T := Qc) velocity_dimension := LinearUnit.in_place f in
  let q : quantity (T := Qc) velocity_dimension :=
    Quantity.in_place (D := velocity_dimension) eq_refl
                      (to_standard_value U (Q2Qc 7)) in
  (LinearUnit.div kilometers minutes = Some (existT _ velocity_dimension U) /\
   call U (Q2Qc 7) = Some q) /\
  Quantity.get q U = Q2Qc 7.
Proof.
  cbv zeta.
  set (U := LinearUnit.in_place (D := velocity_dimension)
              (Qcdiv (conversion_factor kilometers) (conversion_factor minutes))).
  set (q := Quantity.in_place (D := velocity_dimension) eq_refl
              (to_standard_value U (Q2Qc 7))).
  assert (HU : LinearUnit.div kilometers minutes
               = Some (existT _ velocity_dimension U)) by reflexivity.
  assert (Hq : call U (Q2Qc 7) = Some q).
  { exact (construct_of velocity_dimension q _). }
  split; [ split; assumption | ].
  refine (proj2 (compound_unit_round_trip length_dimension time_dimension
                   kilometers minutes (Q2Qc 7) _ _)
                (existT _ velocity_dimension U) q HU Hq).
  - apply (Qc_nonzero 1000). reflexivity.
  - apply (Qc_nonzero 60). reflexivity.
Defined.




End FurtherExamples.
